(** * Intersection analysis of the road-network preprocessor

  A shallow embedding of
    - src/extractor/guidance/intersection.cpp        (ConnectedRoad::mirror),
    - include/extractor/guidance/toolkit.hpp         (leastSquareRegression),
    - src/extractor/guidance/intersection_generator.cpp (IntersectionGenerator),
  followed by the properties of the specification that concern them.

  Numbers.  [double] is binary64 ([PrimFloat.float]) throughout, the
  operations in the order the source applies them.  The bearing arithmetic
  the generator calls (reverseBearing, angleBetweenBearings, the comparator
  of makeCompareShapeDataByBearing) lives in headers that are not part of
  the sources: the generator takes these functions as parameters, and the
  example networks instantiate them with the formulas of the
  specification. *)

From stdpp Require Import base decidable option list sets gmap.
From Stdlib Require Import ZArith NArith Lia List Bool.
From Stdlib Require Import Sorting.Sorted Sorting.Permutation.
From Stdlib Require Uint63.
From Stdlib Require Import Floats.
Import ListNotations.

(** ** Identifiers *)

(** [NodeID] and [EdgeID] are unsigned 32-bit indices. *)
Abbreviation NodeID := N.
Abbreviation EdgeID := N.
Abbreviation LaneDataID := N.

Definition uint32_wrap (n : N) : N := (n mod 2 ^ 32)%N.

(** ** Data model (intersection.hpp, turn_instruction.hpp) *)

Module DirectionModifier.

Inductive Enum : Type :=
| UTurn | SharpRight | Right | SlightRight
| Straight | SlightLeft | Left | SharpLeft.

(** Modelled from the spec: the numeric values of [DirectionModifier::Enum]
    (turn_instruction.hpp is not part of the sources).  The closed set of
    modifiers is the one of section 3; the values are those under which the
    table [mirrored_modifiers] of the source, indexed by the modifier,
    realises the map of section 4.C10
    (U-turn <-> U-turn, SlightLeft <-> SlightRight, Left <-> Right,
     SharpLeft <-> SharpRight, Straight <-> Straight). *)
Definition to_index (m : Enum) : nat :=
  match m with
  | UTurn => 0 | SharpRight => 1 | Right => 2 | SlightRight => 3
  | Straight => 4 | SlightLeft => 5 | Left => 6 | SharpLeft => 7
  end.

Definition MaxDirectionModifier : nat := 8.

End DirectionModifier.

Record TurnInstruction : Type := mkTurnInstruction {
  type : N;
  direction_modifier : DirectionModifier.Enum
}.

Section Data.
(** The representation of [double]. *)
Variable num : Type.

Record IntersectionShapeData : Type := mkShapeData {
  eid : EdgeID;
  bearing : num;
  segment_length : num
}.

(** [IntersectionViewData] extends [IntersectionShapeData]. *)
Record IntersectionViewData : Type := mkViewData {
  view_shape : IntersectionShapeData;
  entry_allowed : bool;
  angle : num
}.

(** [ConnectedRoad] extends [IntersectionViewData]. *)
Record ConnectedRoad : Type := mkConnectedRoad {
  road_view : IntersectionViewData;
  instruction : TurnInstruction;
  lane_data_id : LaneDataID
}.
End Data.

Arguments mkShapeData {num} _ _ _.
Arguments eid {num} _.
Arguments bearing {num} _.
Arguments segment_length {num} _.
Arguments mkViewData {num} _ _ _.
Arguments view_shape {num} _.
Arguments entry_allowed {num} _.
Arguments angle {num} _.
Arguments mkConnectedRoad {num} _ _ _.
Arguments road_view {num} _.
Arguments instruction {num} _.
Arguments lane_data_id {num} _.

(** ** Binary64 helpers *)

Module Double.

(** std::numeric_limits<double>::epsilon() = 2^-52. *)
Definition epsilon : float := 0x1p-52%float.

(** std::min(a, b) = (b < a) ? b : a. *)
Definition std_min (a b : float) : float := if PrimFloat.ltb b a then b else a.

(** std::max(a, b) = (a < b) ? b : a. *)
Definition std_max (a b : float) : float := if PrimFloat.ltb a b then b else a.

(** Modelled from the spec: angular_deviation(a, b) = min(|a-b|, 360-|a-b|)
    (util/guidance/toolkit.hpp is not part of the sources). *)
Definition angularDeviation (a b : float) : float :=
  let deviation := PrimFloat.abs (PrimFloat.sub a b) in
  std_min deviation (PrimFloat.sub 360 deviation).

End Double.

(** ** intersection.cpp *)

Module Intersection.

Import DirectionModifier.

Abbreviation Road := (ConnectedRoad float).

Definition mirrored_modifiers : list Enum :=
  [UTurn; SharpLeft; Left; SlightLeft; Straight; SlightRight; Right; SharpRight].

(** mirrored_modifiers[m]; the table has MaxDirectionModifier entries
    (the static_assert of the source), so the default is never used. *)
Definition mirrored_modifier (m : Enum) : Enum :=
  nth (to_index m) mirrored_modifiers m.

Definition set_angle_modifier (r : Road) (a : float) (m : Enum) : Road :=
  mkConnectedRoad
    (mkViewData (view_shape (road_view r)) (entry_allowed (road_view r)) a)
    (mkTurnInstruction (type (instruction r)) m)
    (lane_data_id r).

(** void ConnectedRoad::mirror(): the receiver before, the receiver after. *)
Definition mirror (r : Road) : Road :=
  if PrimFloat.ltb Double.epsilon (Double.angularDeviation (angle (road_view r)) 0)
  then set_angle_modifier r
         (PrimFloat.sub 360 (angle (road_view r)))
         (mirrored_modifier (direction_modifier (instruction r)))
  else r.

(** ConnectedRoad ConnectedRoad::getMirroredCopy() const: the receiver
    after the call and the returned copy. *)
Definition getMirroredCopy (this : Road) : Road * Road :=
  let copy := this in
  let copy := mirror copy in
  (this, copy).

End Intersection.

(** ** toolkit.hpp: leastSquareRegression *)

(** A coordinate is a pair of fixed-point numbers, longitude first. *)
Record Coordinate : Type := mkCoordinate {
  lon : Z;
  lat : Z
}.

Module Toolkit.

Section LeastSquares.
(** The conversions between the fixed-point and the floating representation
    of a longitude or latitude (util/coordinate.hpp is not part of the
    sources). *)
Variable toFloating : Z -> float.
Variable toFixed : float -> Z.

(** The conversion of [coordinates.size()] to [double] in
    [coordinates.size() * sum_lon_lat]. *)
Definition size_to_double (n : nat) : float :=
  PrimFloat.of_uint63 (Uint63.of_Z (Z.of_nat n)).

(** The six variables the loop updates. *)
Record Sums : Type := mkSums {
  min_lon : float;
  max_lon : float;
  sum_lon : float;
  sum_lat : float;
  sum_lon_lat : float;
  sum_lon_lon : float
}.

(** The body of [for (const auto coord : coordinates)]. *)
Definition accumulate (s : Sums) (coord : Coordinate) : Sums :=
  let x := toFloating (lon coord) in
  let y := toFloating (lat coord) in
  mkSums (Double.std_min (min_lon s) x)
         (Double.std_max (max_lon s) x)
         (sum_lon s + x)%float
         (sum_lat s + y)%float
         (sum_lon_lat s + x * y)%float
         (sum_lon_lon s + x * x)%float.

(** [None] stands for the failed BOOST_ASSERT(coordinates.size() >= 2). *)
Definition leastSquareRegression (coordinates : list Coordinate)
  : option (Coordinate * Coordinate) :=
  match coordinates with
  | front :: _ :: _ =>
      let back := List.last coordinates front in
      let init := mkSums (toFloating (lon front)) (toFloating (lon front)) 0 0 0 0 in
      let s := fold_left accumulate coordinates init in
      let size := size_to_double (length coordinates) in
      let dividend := (size * sum_lon_lat s - sum_lon s * sum_lat s)%float in
      let divisor := (size * sum_lon_lon s - sum_lon s * sum_lon s)%float in
      if PrimFloat.ltb (PrimFloat.abs divisor) Double.epsilon
      then Some (front, back)
      else
        let slope := (dividend / divisor)%float in
        let intercept := ((sum_lat s - slope * sum_lon s) / size)%float in
        let GetLatAtLon := fun longitude : float => (intercept + slope * longitude)%float in
        let regression_first :=
          mkCoordinate (toFixed (min_lon s - 1)%float)
                       (toFixed (GetLatAtLon (min_lon s - 1)%float)) in
        let regression_end :=
          mkCoordinate (toFixed (max_lon s + 1)%float)
                       (toFixed (GetLatAtLon (max_lon s + 1)%float)) in
        Some (regression_first, regression_end)
  | _ => None
  end.

(** *** The regression as the specification words it *)

Definition float_sum (l : list float) : float := fold_left PrimFloat.add l 0%float.

Definition lons (cs : list Coordinate) : list float :=
  map (fun c => toFloating (lon c)) cs.
Definition lats (cs : list Coordinate) : list float :=
  map (fun c => toFloating (lat c)) cs.

(** Sigma lon, Sigma lat, Sigma lon*lat, Sigma lon^2, each summed on its own
    in the order of the input. *)
Definition Sigma_lon (cs : list Coordinate) : float := float_sum (lons cs).
Definition Sigma_lat (cs : list Coordinate) : float := float_sum (lats cs).
Definition Sigma_lon_lat (cs : list Coordinate) : float :=
  float_sum (map (fun c => (toFloating (lon c) * toFloating (lat c))%float) cs).
Definition Sigma_lon_lon (cs : list Coordinate) : float :=
  float_sum (map (fun c => (toFloating (lon c) * toFloating (lon c))%float) cs).

(** The least and the greatest longitude of the input. *)
Definition least_lon (front : Coordinate) (cs : list Coordinate) : float :=
  fold_left Double.std_min (lons cs) (toFloating (lon front)).
Definition greatest_lon (front : Coordinate) (cs : list Coordinate) : float :=
  fold_left Double.std_max (lons cs) (toFloating (lon front)).

(** n * Sigma lon^2 - (Sigma lon)^2. *)
Definition denominator (cs : list Coordinate) : float :=
  (size_to_double (length cs) * Sigma_lon_lon cs - Sigma_lon cs * Sigma_lon cs)%float.

(** m = (n * Sigma lon*lat - Sigma lon * Sigma lat) / denominator. *)
Definition regression_slope (cs : list Coordinate) : float :=
  ((size_to_double (length cs) * Sigma_lon_lat cs - Sigma_lon cs * Sigma_lat cs)
   / denominator cs)%float.

(** c = (Sigma lat - m * Sigma lon) / n. *)
Definition regression_intercept (cs : list Coordinate) : float :=
  ((Sigma_lat cs - regression_slope cs * Sigma_lon cs)
   / size_to_double (length cs))%float.

(** The point of the line lat = m * lon + c above the longitude [x], in
    fixed-point representation. *)
Definition point_on_line (cs : list Coordinate) (x : float) : Coordinate :=
  mkCoordinate (toFixed x)
    (toFixed (regression_intercept cs + regression_slope cs * x)%float).

Definition regression_result (front : Coordinate) (cs : list Coordinate)
  : Coordinate * Coordinate :=
  if PrimFloat.ltb (PrimFloat.abs (denominator cs)) Double.epsilon
  then (front, List.last cs front)
  else (point_on_line cs (least_lon front cs - 1)%float,
        point_on_line cs (greatest_lon front cs + 1)%float).

End LeastSquares.

End Toolkit.

(** *** A concrete fixed-point representation, for the examples *)

Module MicroDegrees.

(** Modelled from the spec: "a fixed-point longitude/latitude pair at
    sub-microdegree precision; convertible to floating point for arithmetic"
    (util/coordinate.hpp is not part of the sources).  A fixed value counts
    millionths of a degree. *)
Definition Z_to_double (z : Z) : float :=
  match z with
  | Z0 => 0%float
  | Zpos _ => PrimFloat.of_uint63 (Uint63.of_Z z)
  | Zneg _ => PrimFloat.opp (PrimFloat.of_uint63 (Uint63.of_Z (- z)))
  end.

Definition toFloating (fixed : Z) : float := (Z_to_double fixed / 1e6)%float.

(** The integer nearest to a finite double, halves away from zero
    (std::round); 0 for the other doubles. *)
Definition round_to_Z (x : float) : Z :=
  match Prim2SF x with
  | S754_finite s m e =>
      let magnitude :=
        if (0 <=? e)%Z then (Zpos m * 2 ^ e)%Z
        else ((2 * Zpos m + 2 ^ (- e)) / 2 ^ (- e + 1))%Z in
      if s then (- magnitude)%Z else magnitude
  | _ => 0%Z
  end.

Definition toFixed (floating : float) : Z := round_to_Z (floating * 1e6)%float.

End MicroDegrees.

(** Three points of the diagonal lat = lon, and two points of one meridian. *)
Definition diagonal_road : list Coordinate :=
  [mkCoordinate 0 0; mkCoordinate 1000000 1000000; mkCoordinate 2000000 2000000].
Definition meridian_road : list Coordinate :=
  [mkCoordinate 5000000 1000000; mkCoordinate 5000000 9000000].

(** ** The algorithms of the standard library the generator calls *)

Module Std.

Section Algorithms.
Context {A : Type}.

(** std::find_if: the position of the first element satisfying [p] together
    with that element; [None] is the end iterator. *)
Fixpoint find_if_from (p : A -> bool) (l : list A) (pos : nat) : option (nat * A) :=
  match l with
  | [] => None
  | x :: rest => if p x then Some (pos, x) else find_if_from p rest (S pos)
  end.

Definition find_if (p : A -> bool) (l : list A) : option (nat * A) :=
  find_if_from p l 0.

(** std::count_if. *)
Fixpoint count_if (p : A -> bool) (l : list A) : nat :=
  match l with
  | [] => 0
  | x :: rest => if p x then S (count_if p rest) else count_if p rest
  end.

(** std::sort with the comparator [less].  The standard fixes the result up
    to the order of equivalent elements; insertion into an ordered suffix,
    which keeps equivalent elements in their order, is the instance used
    here, and the properties below rely on the result being an ordered
    permutation only. *)
Fixpoint insert_ordered (less : A -> A -> bool) (x : A) (l : list A) : list A :=
  match l with
  | [] => [x]
  | y :: rest => if less y x then y :: insert_ordered less x rest else x :: l
  end.

Definition sort (less : A -> A -> bool) (l : list A) : list A :=
  fold_right (insert_ordered less) [] l.

(** std::min_element with the comparator [less]: the position of the
    smallest element so far is replaced whenever a later element compares
    less than it; on an empty range the result is the end position. *)
Fixpoint min_element_from (less : A -> A -> bool) (smallest_pos : nat)
    (smallest : A) (pos : nat) (l : list A) : nat :=
  match l with
  | [] => smallest_pos
  | x :: rest =>
      if less x smallest
      then min_element_from less pos x (S pos) rest
      else min_element_from less smallest_pos smallest (S pos) rest
  end.

Definition min_element (less : A -> A -> bool) (l : list A) : nat :=
  match l with
  | [] => 0%nat
  | first :: rest => min_element_from less 0%nat first 1%nat rest
  end.

(** std::is_sorted with the comparator [less]: no element compares less
    than its predecessor. *)
Fixpoint is_sorted (less : A -> A -> bool) (l : list A) : bool :=
  match l with
  | [] => true
  | previous :: rest =>
      match rest with
      | [] => true
      | next :: _ => if less next previous then false else is_sorted less rest
      end
  end.


End Algorithms.

End Std.

(** ** intersection.cpp: findClosestTurn and valid *)

Module IntersectionLookup.

Section ClosestTurn.
(** The element type of the container, with its [angle]:
    IntersectionViewData for IntersectionView, ConnectedRoad for
    Intersection. *)
Context {R : Type}.
Variable get_angle : R -> float.

(** The lambda handed to std::min_element. *)
Definition closer_to (angle : float) (lhs rhs : R) : bool :=
  PrimFloat.ltb (Double.angularDeviation (get_angle lhs) angle)
                (Double.angularDeviation (get_angle rhs) angle).

(** findClosestTurn(double angle) const: the position the returned iterator
    points at; the length of the container stands for end(). *)
Definition findClosestTurn_const (this : list R) (angle : float) : nat :=
  Std.min_element (closer_to angle) this.

(** The overload that is not const: begin() + distance(cbegin(), ...). *)
Definition findClosestTurn (this : list R) (angle : float) : nat :=
  (0 + (findClosestTurn_const this angle - 0))%nat.

End ClosestTurn.

Definition IntersectionView_findClosestTurn :
    list (IntersectionViewData float) -> float -> nat :=
  findClosestTurn (fun road => angle road).

Definition Intersection_findClosestTurn :
    list (ConnectedRoad float) -> float -> nat :=
  findClosestTurn (fun road => angle (road_view road)).

(** ConnectedRoad::compareByAngle. *)
Definition compareByAngle (this other : ConnectedRoad float) : bool :=
  PrimFloat.ltb (angle (road_view this)) (angle (road_view other)).

(** Intersection::valid(). *)
Definition valid (this : list (ConnectedRoad float)) : bool :=
  match this with
  | [] => false
  | first :: _ =>
      Std.is_sorted compareByAngle this
      && PrimFloat.ltb (angle (road_view first)) Double.epsilon
  end.

End IntersectionLookup.

(** ** The collaborators of the generator *)

Record RoadClassification : Type := mkRoadClassification {
  priority : N;
  number_of_lanes : N;
  is_low_priority : bool
}.

Record EdgeData : Type := mkEdgeData {
  reversed : bool;
  road_classification : RoadClassification
}.

(** util::NodeBasedDynamicGraph, through the operations the generator calls
    (util/node_based_graph.hpp is not part of the sources). *)
Record NodeBasedDynamicGraph : Type := mkGraph {
  GetTarget : EdgeID -> NodeID;
  GetOutDegree : NodeID -> N;
  BeginEdges : NodeID -> EdgeID;
  GetAdjacentEdgeRange : NodeID -> list EdgeID;
  FindEdge : NodeID -> NodeID -> EdgeID;
  GetEdgeData : EdgeID -> EdgeData
}.

(** RestrictionMap; CheckForEmanatingIsOnlyTurn answers SPECIAL_NODEID when
    there is no only-turn. *)
Record RestrictionMap : Type := mkRestrictionMap {
  CheckIfTurnIsRestricted : NodeID -> NodeID -> NodeID -> bool;
  CheckForEmanatingIsOnlyTurn : NodeID -> NodeID -> NodeID
}.

Record CoordinateExtractor : Type := mkCoordinateExtractor {
  GetCoordinatesAlongRoad : NodeID -> EdgeID -> bool -> NodeID -> list Coordinate;
  GetCoordinateCloseToTurn : NodeID -> EdgeID -> bool -> NodeID -> Coordinate;
  ExtractRepresentativeCoordinate :
    NodeID -> EdgeID -> bool -> NodeID -> N -> list Coordinate -> Coordinate
}.

(** The members of class IntersectionGenerator. *)
Record IntersectionGenerator : Type := mkIntersectionGenerator {
  node_based_graph : NodeBasedDynamicGraph;
  restriction_map : RestrictionMap;
  barrier_nodes : gset NodeID;
  node_info_list : list Coordinate;
  coordinate_extractor : CoordinateExtractor
}.

Abbreviation IntersectionShape := (list (IntersectionShapeData float)).
Abbreviation IntersectionView := (list (IntersectionViewData float)).

(** What the generator uses of headers that are not part of the sources:
    the sentinels of util/typedefs.hpp, INVERT of guidance/constants.hpp,
    EdgeData::IsCompatibleTo, util::coordinate_calculation's bearing and
    haversine length of a polyline, util::bearing's reverseBearing and
    angleBetweenBearings(entry_bearing, exit_bearing), and the comparator
    makeCompareShapeDataByBearing(base_bearing) of guidance/intersection.hpp,
    applied to the two entries it compares. *)
Record Externals : Type := mkExternals {
  SPECIAL_NODEID : NodeID;
  SPECIAL_EDGEID : EdgeID;
  INVERT : bool;
  IsCompatibleTo : EdgeData -> EdgeData -> bool;
  coordinate_bearing : Coordinate -> Coordinate -> float;
  getLength : list Coordinate -> float;
  reverseBearing : float -> float;
  angleBetweenBearings : float -> float -> float;
  makeCompareShapeDataByBearing :
    float -> IntersectionShapeData float -> IntersectionShapeData float -> bool
}.

(** ** toolkit.hpp: getLaneCountAtIntersection *)

Definition getLaneCountAtIntersection (intersection_node : NodeID)
    (node_based_graph : NodeBasedDynamicGraph) : N :=
  fold_left
    (fun lanes onto_edge =>
       N.max lanes
         (number_of_lanes (road_classification (GetEdgeData node_based_graph onto_edge))))
    (GetAdjacentEdgeRange node_based_graph intersection_node) 0%N.

(** ** intersection_generator.cpp *)

(** A method returns [None] when one of its BOOST_ASSERTs fails or it reads
    past the end of a container; what the source does from there on is not
    defined. *)

Module Generator.

Definition USE_LOW_PRECISION_MODE : bool := true.
Definition USE_HIGH_PRECISION_MODE : bool := negb USE_LOW_PRECISION_MODE.

(** *** The state of the skip loop of GetActualNextIntersection *)

(** The variables of the skip loop. *)
Record Walk : Type := mkWalk {
  visited_nodes : gset NodeID;
  query_node : NodeID;
  query_edge : EdgeID
}.

(** What one evaluation of the guard, followed by the body when the guard
    holds, does to the variables of the loop. *)
Inductive Step : Type :=
| Continue (w : Walk)   (* the end of the body is reached *)
| Leave (w : Walk)      (* the guard fails, or the body breaks *)
| Failed.               (* an assertion fails *)

(** The result of a run that may evaluate the guard of the loop at most
    [fuel] times. *)
Inductive Outcome (A : Type) : Type :=
| Returned (a : A)
| AssertionFailed
| OutOfFuel.
Arguments Returned {A} _.
Arguments AssertionFailed {A}.
Arguments OutOfFuel {A}.

(** Every node the loop has left behind is one of [nodes], and so is the
    one it is at. *)
Definition walk_in_graph (nodes : gset NodeID) (w : Walk) : Prop :=
  visited_nodes w ⊆ nodes /\ query_node w ∈ nodes.

Section Methods.
Variable ext : Externals.
Variable this : IntersectionGenerator.

Local Abbreviation graph := (node_based_graph this).

(** IntersectionViewData::CompareByAngle (intersection.cpp):
    angle < other.angle. *)
Definition CompareByAngle (this_road other : IntersectionViewData float) : bool :=
  PrimFloat.ltb (angle this_road) (angle other).

(** The body of the loop of ComputeIntersectionShape: the entry pushed for
    one adjacent edge. *)
Definition shape_entry (node_at_center_of_intersection : NodeID)
    (intersection_degree intersection_lanes : N) (turn_coordinate : Coordinate)
    (use_low_precision_angles : bool) (edge_connected_to_intersection : EdgeID)
  : option (IntersectionShapeData float) :=
  if (edge_connected_to_intersection =? SPECIAL_EDGEID ext)%N then None
  else
    let to_node := GetTarget graph edge_connected_to_intersection in
    let coordinates :=
      GetCoordinatesAlongRoad (coordinate_extractor this)
        node_at_center_of_intersection edge_connected_to_intersection
        (negb (INVERT ext)) to_node in
    let segment_length := getLength ext coordinates in
    let extract_coordinate :=
      fun (from_node : NodeID) (via_eid : EdgeID) (traversed_in_reverse : bool)
          (to_node : NodeID) =>
        if use_low_precision_angles || (intersection_degree <=? 2)%N
        then GetCoordinateCloseToTurn (coordinate_extractor this)
               from_node via_eid traversed_in_reverse to_node
        else ExtractRepresentativeCoordinate (coordinate_extractor this)
               from_node via_eid traversed_in_reverse to_node
               intersection_lanes coordinates in
    let coordinate_along_edge_leaving :=
      extract_coordinate node_at_center_of_intersection
        edge_connected_to_intersection (negb (INVERT ext)) to_node in
    let bearing := coordinate_bearing ext turn_coordinate coordinate_along_edge_leaving in
    Some (mkShapeData edge_connected_to_intersection bearing segment_length).

Fixpoint shape_entries (entry : EdgeID -> option (IntersectionShapeData float))
    (edges : list EdgeID) : option IntersectionShape :=
  match edges with
  | [] => Some []
  | edge :: rest =>
      data ← entry edge;
      intersection ← shape_entries entry rest;
      Some (data :: intersection)
  end.

(** The bearing the shape is sorted around. *)
Definition base_bearing (sorting_base : option NodeID)
    (first : IntersectionShapeData float) (intersection : IntersectionShape)
  : float :=
  match sorting_base with
  | Some base =>
      match Std.find_if (fun data => (GetTarget graph (eid data) =? base)%N) intersection with
      | Some (_, data) => reverseBearing ext (bearing data)
      | None => reverseBearing ext (bearing first)
      end
  | None => reverseBearing ext (bearing first)
  end.

Definition ComputeIntersectionShape (node_at_center_of_intersection : NodeID)
    (sorting_base : option NodeID) (use_low_precision_angles : bool)
  : option IntersectionShape :=
  let intersection_degree := GetOutDegree graph node_at_center_of_intersection in
  turn_coordinate ← node_info_list this !! N.to_nat node_at_center_of_intersection;
  let intersection_lanes :=
    getLaneCountAtIntersection node_at_center_of_intersection graph in
  intersection ←
    shape_entries
      (shape_entry node_at_center_of_intersection intersection_degree
         intersection_lanes turn_coordinate use_low_precision_angles)
      (GetAdjacentEdgeRange graph node_at_center_of_intersection);
  match intersection with
  | [] => Some intersection
  | first :: _ =>
      Some (Std.sort
              (makeCompareShapeDataByBearing ext
                 (base_bearing sorting_base first intersection))
              intersection)
  end.

(** *** GetOnlyAllowedTurnIfExistent *)

(** for (onto_edge : adjacent edges)
      if (only_restriction_to_node == GetTarget(onto_edge)) return ...; *)
Fixpoint node_is_adjacent (only_restriction_to_node : NodeID)
    (edges : list EdgeID) : bool :=
  match edges with
  | [] => false
  | onto_edge :: rest =>
      if (only_restriction_to_node =? GetTarget graph onto_edge)%N then true
      else node_is_adjacent only_restriction_to_node rest
  end.

Definition GetOnlyAllowedTurnIfExistent (coming_from_node node_at_intersection : NodeID)
  : option NodeID :=
  let only_restriction_to_node :=
    CheckForEmanatingIsOnlyTurn (restriction_map this)
      coming_from_node node_at_intersection in
  if negb (only_restriction_to_node =? SPECIAL_NODEID ext)%N
  then
    if node_is_adjacent only_restriction_to_node
         (GetAdjacentEdgeRange graph node_at_intersection)
    then Some only_restriction_to_node
    else None
  else None.

(** *** TransformIntersectionShapeIntoView *)

Section Transform.
Variable previous_node : NodeID.
Variable entering_via_edge : EdgeID.
Variable normalised_intersection : IntersectionShape.
Variable intersection : IntersectionShape.
Variable performed_merges : list (EdgeID * EdgeID).

Definition node_at_intersection : NodeID := GetTarget graph entering_via_edge.

Definition only_valid_turn : option NodeID :=
  GetOnlyAllowedTurnIfExistent previous_node node_at_intersection.

Definition is_barrier_node : bool :=
  bool_decide (node_at_intersection ∈ barrier_nodes this).

Definition connect_to_previous_node (road : IntersectionShapeData float) : bool :=
  (GetTarget graph (eid road) =? previous_node)%N.

(** check which of the edges is the u-turn edge *)
Definition uturn_edge_itr : option (nat * IntersectionShapeData float) :=
  Std.find_if connect_to_previous_node intersection.

Definition is_restricted (destination : NodeID) : bool :=
  match only_valid_turn with
  | Some only =>
      if negb (only =? destination)%N then true
      else CheckIfTurnIsRestricted (restriction_map this)
             previous_node node_at_intersection destination
  | None =>
      CheckIfTurnIsRestricted (restriction_map this)
        previous_node node_at_intersection destination
  end.

Definition is_allowed_turn (road : IntersectionShapeData float) : bool :=
  let road_data := GetEdgeData graph (eid road) in
  let road_destination_node := GetTarget graph (eid road) in
  negb (reversed road_data)
  && (negb is_barrier_node || (road_destination_node =? previous_node)%N)
  && negb (is_restricted road_destination_node).

(** due to merging of roads, the u-turn might actually not be part of the
    intersection anymore *)
Definition uturn_bearing (uturn_edge : IntersectionShapeData float)
  : option float :=
  match Std.find_if (fun entry : EdgeID * EdgeID => (fst entry =? eid uturn_edge)%N)
          performed_merges with
  | Some (_, merge_entry) =>
      let merged_into_id := snd merge_entry in
      '(_, merged_u_turn) ←
        Std.find_if (fun road : IntersectionShapeData float => (eid road =? merged_into_id)%N)
          normalised_intersection;
      Some (reverseBearing ext (bearing merged_u_turn))
  | None =>
      '(_, uturn_edge_at_normalised_intersection) ←
        Std.find_if connect_to_previous_node normalised_intersection;
      Some (reverseBearing ext (bearing uturn_edge_at_normalised_intersection))
  end.

(** The std::transform into the view. *)
Definition initial_view (uturn_bearing : float) : IntersectionView :=
  map (fun road =>
         mkViewData road (is_allowed_turn road)
           (angleBetweenBearings ext uturn_bearing (bearing road)))
      normalised_intersection.

Definition is_bidirectional (entering_via_edge : EdgeID) : option bool :=
  let to_node := GetTarget graph entering_via_edge in
  let reverse_edge := FindEdge graph to_node node_at_intersection in
  if (reverse_edge =? SPECIAL_EDGEID ext)%N then None
  else Some (negb (reversed (GetEdgeData graph reverse_edge))).

(** std::uint32_t count = 0; for (eid : adjacent edges)
      if (is_bidirectional(eid)) ++count; *)
Fixpoint count_bidirectional (count : N) (edges : list EdgeID) : option N :=
  match edges with
  | [] => Some count
  | edge :: rest =>
      match is_bidirectional edge with
      | Some true => count_bidirectional (uint32_wrap (count + 1)) rest
      | Some false => count_bidirectional count rest
      | None => None
      end
  end.

Definition bidirectional_edges : option N :=
  count_bidirectional 0%N (GetAdjacentEdgeRange graph node_at_intersection).

Definition allow_uturn_at_dead_end (uturn_edge : IntersectionShapeData float)
  : option bool :=
  let uturn_data := GetEdgeData graph (eid uturn_edge) in
  if reversed uturn_data then Some false
  else if is_restricted previous_node then Some false
  else
    count ← bidirectional_edges;
    Some (count <=? 1)%N.

Definition set_entry_allowed (road : IntersectionViewData float) (allowed : bool)
  : IntersectionViewData float :=
  mkViewData (view_shape road) allowed (angle road).

(** From the search for the u-turn slot in the view to the assignment of its
    [entry_allowed]. *)
Definition dead_end_policy (uturn_edge : IntersectionShapeData float)
    (intersection_view : IntersectionView) : option IntersectionView :=
  let uturn_edge_at_intersection_view_itr :=
    Std.find_if (fun road => connect_to_previous_node (view_shape road))
      intersection_view in
  let valid_count :=
    Std.count_if (fun road : IntersectionViewData float => entry_allowed road)
      intersection_view in
  match uturn_edge_at_intersection_view_itr with
  | Some (position, uturn_slot) =>
      if (entry_allowed uturn_slot && negb is_barrier_node
          && negb (valid_count =? 1)%nat)
         || (valid_count =? 0)%nat
      then
        allowed ← allow_uturn_at_dead_end uturn_edge;
        Some (<[position := set_entry_allowed uturn_slot allowed]> intersection_view)
      else Some intersection_view
  | None => Some intersection_view
  end.

(** BOOST_ASSERT(intersection_view[0].angle >= 0. &&
                 intersection_view[0].angle < epsilon); return intersection_view;
    an empty view has no element 0 to read. *)
Definition checked_view (intersection_view : IntersectionView)
  : option IntersectionView :=
  match intersection_view with
  | [] => None
  | first :: _ =>
      if PrimFloat.leb 0 (angle first) && PrimFloat.ltb (angle first) Double.epsilon
      then Some intersection_view
      else None
  end.

Definition TransformIntersectionShapeIntoView : option IntersectionView :=
  '(_, uturn_edge) ← uturn_edge_itr;
  uturn_bearing ← uturn_bearing uturn_edge;
  intersection_view ← dead_end_policy uturn_edge (initial_view uturn_bearing);
  checked_view (Std.sort CompareByAngle intersection_view).

(** *** The dead-end U-turn policy as the specification words it
    (section 4.C6, step 8) *)

Definition number_of_allowed_exits (view : IntersectionView) : nat :=
  length (List.filter (fun road : IntersectionViewData float => entry_allowed road) view).

(** The U-turn slot: the road of the view that targets previous_node. *)
Definition uturn_slot (view : IntersectionView) : option (IntersectionViewData float) :=
  List.find (fun road => connect_to_previous_node (view_shape road)) view.

(** "If it exists and either (currently_allowed AND not barrier AND
    number_of_allowed_exits <> 1), or number_of_allowed_exits == 0". *)
Definition uturn_is_redecided (view : IntersectionView) : bool :=
  match uturn_slot view with
  | Some slot =>
      (entry_allowed slot && negb is_barrier_node
       && negb (number_of_allowed_exits view =? 1)%nat)
      || (number_of_allowed_exits view =? 0)%nat
  | None => false
  end.

(** The adjacent edges [e] of the junction whose reverse edge
    (target(e) -> node_at_intersection) has [reversed = false]. *)
Definition bidirectional_adjacent_edges : list EdgeID :=
  List.filter
    (fun e =>
       negb (reversed (GetEdgeData graph
                         (FindEdge graph (GetTarget graph e) node_at_intersection))))
    (GetAdjacentEdgeRange graph node_at_intersection).

(** True iff the U-turn edge is not reversed, the turn back to previous_node
    is not restricted, and at most one adjacent edge is bidirectional. *)
Definition redecided_entry_allowed (uturn_edge : IntersectionShapeData float) : bool :=
  negb (reversed (GetEdgeData graph (eid uturn_edge)))
  && negb (is_restricted previous_node)
  && (length bidirectional_adjacent_edges <=? 1)%nat.

End Transform.

(** The overload without merges: the shape is both the normalised and the
    original intersection. *)
Definition TransformIntersectionShapeIntoView_unmerged (previous_node : NodeID)
    (entering_via_edge : EdgeID) (intersection_shape : IntersectionShape)
  : option IntersectionView :=
  TransformIntersectionShapeIntoView previous_node entering_via_edge
    intersection_shape intersection_shape [].

(** *** GetConnectedRoads *)

Definition via_eid_is_valid (from_node : NodeID) (via_eid : EdgeID) : bool :=
  match GetAdjacentEdgeRange graph from_node with
  | [] => false
  | front :: rest =>
      (front <=? via_eid)%N && (via_eid <=? List.last rest front)%N
  end.

Definition GetConnectedRoads (from_node : NodeID) (via_eid : EdgeID)
    (use_low_precision_angles : bool) : option IntersectionView :=
  if via_eid_is_valid from_node via_eid then
    intersection ←
      ComputeIntersectionShape (GetTarget graph via_eid) None use_low_precision_angles;
    TransformIntersectionShapeIntoView_unmerged from_node via_eid intersection
  else None.

(** IntersectionGenerator::operator(). *)
Definition call (from_node : NodeID) (via_eid : EdgeID) : option IntersectionView :=
  GetConnectedRoads from_node via_eid USE_HIGH_PRECISION_MODE.

(** *** GetActualNextIntersection *)

(** The lambda get_next_edge; [None] when its assertion on the out-degree
    fails. *)
Definition get_next_edge (from : NodeID) (via : EdgeID) : option EdgeID :=
  let new_node := GetTarget graph via in
  if (GetOutDegree graph new_node =? 2)%N then
    let begin_edges_new_node := BeginEdges graph new_node in
    Some (if (GetTarget graph begin_edges_new_node =? from)%N
          then uint32_wrap (begin_edges_new_node + 1)
          else begin_edges_new_node)
  else None.

(** The guard of the while loop. *)
Definition skip_guard (w : Walk) : bool :=
  bool_decide (query_node w ∉ visited_nodes w)
  && (GetOutDegree graph (GetTarget graph (query_edge w)) =? 2)%N.

Definition skip_step (starting_node : NodeID) (w : Walk) : Step :=
  if skip_guard w then
    let visited := {[query_node w]} ∪ visited_nodes w in
    let next_node := GetTarget graph (query_edge w) in
    match get_next_edge (query_node w) (query_edge w) with
    | Some next_edge =>
        if negb (IsCompatibleTo ext (GetEdgeData graph (query_edge w))
                                    (GetEdgeData graph next_edge))
           || (GetTarget graph next_edge =? starting_node)%N
        then Leave (mkWalk visited (query_node w) (query_edge w))
        else Continue (mkWalk visited next_node next_edge)
    | None => Failed
    end
  else Leave w.

Fixpoint skip_trivial_nodes (fuel : nat) (starting_node : NodeID) (w : Walk)
  : Outcome Walk :=
  match fuel with
  | O => OutOfFuel
  | S fuel' =>
      match skip_step starting_node w with
      | Continue w' => skip_trivial_nodes fuel' starting_node w'
      | Leave w' => Returned w'
      | Failed => AssertionFailed
      end
  end.

(** The view together with the out-parameters resulting_from_node and
    resulting_via_edge.  The call of GetConnectedRoads passes no third
    argument: the default of the declaration, high precision (section 6). *)
Definition GetActualNextIntersection (fuel : nat) (starting_node : NodeID)
    (via_edge : EdgeID) : Outcome (IntersectionView * NodeID * EdgeID) :=
  match skip_trivial_nodes fuel starting_node (mkWalk ∅ starting_node via_edge) with
  | Returned w =>
      match GetConnectedRoads (query_node w) (query_edge w) USE_HIGH_PRECISION_MODE with
      | Some view => Returned (view, query_node w, query_edge w)
      | None => AssertionFailed
      end
  | AssertionFailed => AssertionFailed
  | OutOfFuel => OutOfFuel
  end.

(** The node and edge the skip loop is at: the given ones, or a node of
    out-degree 2 with one of its first two edges, an edge that does not lead
    to starting_node. *)
Definition resolved (starting_node : NodeID) (via_edge : EdgeID)
    (from_node : NodeID) (via_eid : EdgeID) : Prop :=
  (from_node = starting_node /\ via_eid = via_edge) \/
  (GetOutDegree graph from_node = 2%N /\
   (via_eid = BeginEdges graph from_node \/
    via_eid = uint32_wrap (BeginEdges graph from_node + 1)) /\
   GetTarget graph via_eid <> starting_node).

End Methods.

End Generator.

(** ** Bearing arithmetic for the example networks *)

Module Bearing.

(** x mod 360 for a double x with -360 <= x < 720, which is where sums and
    differences of a bearing in [0, 360) and 180 or another such bearing
    lie: 360 is added to a negative x and subtracted from an x of 360 or
    more, in binary64 as every operation here. *)
Definition normalise (x : float) : float :=
  if PrimFloat.ltb x 0 then (x + 360)%float
  else if PrimFloat.leb 360 x then (x - 360)%float
  else x.

(** Modelled from the spec: reverse_bearing(b) = (b + 180) mod 360
    (util/bearing.hpp is not part of the sources). *)
Definition reverseBearing (bearing : float) : float :=
  normalise (bearing + 180)%float.

(** Modelled from the spec: angle_between_bearings, "degrees clockwise from
    entry_reverse to exit, normalized to [0, 360)", where by the convention
    of section 8 item 6 "the base is the reverse of entry bearing", so that
    angle_between_bearings(b, b) is 180 and a U-turn is 0
    (util/bearing.hpp is not part of the sources). *)
Definition angleBetweenBearings (entry_bearing exit_bearing : float) : float :=
  normalise (exit_bearing - reverseBearing entry_bearing)%float.

(** Modelled from the spec: makeCompareShapeDataByBearing, a comparator
    "that orders bearings clockwise starting from base" such that "the first
    element's bearing corresponds to the base" (section 3) and an entry that
    targets the sorting base, whose reversed bearing is the base, "is placed
    first" (section 8 item 2): entries are compared by the angle between
    the base and their bearing, measured as angle_between_bearings measures
    it (guidance/intersection.hpp is not part of the sources). *)
Definition makeCompareShapeDataByBearing (base_bearing : float)
    (lhs rhs : IntersectionShapeData float) : bool :=
  PrimFloat.ltb (angleBetweenBearings base_bearing (bearing lhs))
                (angleBetweenBearings base_bearing (bearing rhs)).

End Bearing.

(** ** Example networks *)

Module Examples.

(** A graph stored the way a static adjacency array stores it: the targets
    and the data of the edges by edge id, and for every node the id of its
    first edge, followed by one closing offset. *)
Definition UINT32_MAX : N := 4294967295.

Definition edges_of (offsets : list N) (n : NodeID) : list EdgeID :=
  let first := nth (N.to_nat n) offsets 0%N in
  let past := nth (S (N.to_nat n)) offsets 0%N in
  map N.of_nat (seq (N.to_nat first) (N.to_nat past - N.to_nat first)).

Definition array_graph (targets : list NodeID) (offsets : list N)
    (data : list EdgeData) : NodeBasedDynamicGraph :=
  let target := fun e : EdgeID => nth (N.to_nat e) targets 0%N in
  mkGraph
    target
    (fun n => N.of_nat (length (edges_of offsets n)))
    (fun n => nth (N.to_nat n) offsets 0%N)
    (edges_of offsets)
    (fun u v =>
       match List.find (fun e => (target e =? v)%N) (edges_of offsets u) with
       | Some e => e
       | None => UINT32_MAX
       end)
    (fun e =>
       nth (N.to_nat e) data
         (mkEdgeData false (mkRoadClassification 0 0 false))).

(** Bearings between points that lie on a common meridian or parallel. *)
Definition cardinal_bearing (from to : Coordinate) : float :=
  if (lon from <? lon to)%Z then 90
  else if (lon to <? lon from)%Z then 270
  else if (lat to <? lat from)%Z then 180
  else 0.

Definition grid_length (polyline : list Coordinate) : float :=
  match polyline with
  | a :: b :: _ =>
      MicroDegrees.Z_to_double (Z.abs (lon a - lon b) + Z.abs (lat a - lat b))
  | _ => 0
  end.

Definition same_priority (a b : EdgeData) : bool :=
  (priority (road_classification a) =? priority (road_classification b))%N.

Definition externals : Externals :=
  mkExternals UINT32_MAX UINT32_MAX true same_priority cardinal_bearing grid_length
    Bearing.reverseBearing Bearing.angleBetweenBearings
    Bearing.makeCompareShapeDataByBearing.

(** An extractor over straight edges: the polyline of an edge is its two end
    points, and every sampled coordinate is the far end. *)
Definition straight_extractor (nodes : list Coordinate) : CoordinateExtractor :=
  let at_node := fun n : NodeID => nth (N.to_nat n) nodes (mkCoordinate 0 0) in
  mkCoordinateExtractor
    (fun from _ _ to => [at_node from; at_node to])
    (fun _ _ _ to => at_node to)
    (fun _ _ _ to _ _ => at_node to).

Definition road (is_reversed : bool) (road_priority : N) : EdgeData :=
  mkEdgeData is_reversed (mkRoadClassification road_priority 1 false).

Definition no_restrictions : RestrictionMap :=
  mkRestrictionMap (fun _ _ _ => false) (fun _ _ => UINT32_MAX).

(** *** A four-way cross (scenario S1)

    Node 0 is the centre; nodes 1, 2, 3, 4 lie east, west, north and south
    of it.  Edges 0..3 leave the centre towards 1, 2, 3, 4; edges 4..7 lead
    from 1, 2, 3, 4 back to the centre. *)
Definition cross_nodes : list Coordinate :=
  [mkCoordinate 0 0; mkCoordinate 1000 0; mkCoordinate (-1000) 0;
   mkCoordinate 0 1000; mkCoordinate 0 (-1000)].

Definition cross_graph : NodeBasedDynamicGraph :=
  array_graph [1; 2; 3; 4; 0; 0; 0; 0]%N [0; 4; 5; 6; 7; 8]%N
    (repeat (road false 3) 8).

Definition cross (restrictions : RestrictionMap) (barriers : gset NodeID)
  : IntersectionGenerator :=
  mkIntersectionGenerator cross_graph restrictions barriers cross_nodes
    (straight_extractor cross_nodes).

(** Entering the cross from the south, only the turn to the east (node 1)
    is permitted (scenario S4). *)
Definition only_east : RestrictionMap :=
  mkRestrictionMap (fun _ _ _ => false)
    (fun from via => if (from =? 4)%N && (via =? 0)%N then 1%N else UINT32_MAX).

(** An only-turn restriction that names node 9, which is not adjacent to the
    centre. *)
Definition only_node_9 : RestrictionMap :=
  mkRestrictionMap (fun _ _ _ => false)
    (fun from via => if (from =? 4)%N && (via =? 0)%N then 9%N else UINT32_MAX).

(** *** A chain of trivial nodes (scenario S5)

    0 - 1 - 2 - 3, where 1 and 2 have two edges each and 3 is a junction
    with the further neighbours 4 (east) and 5 (west).
    Edge 0: 0->1; edges 1, 2: 1->0, 1->2; edges 3, 4: 2->1, 2->3;
    edges 5, 6, 7: 3->2, 3->4, 3->5; edge 8: 4->3; edge 9: 5->3. *)
Definition chain_nodes : list Coordinate :=
  [mkCoordinate 0 0; mkCoordinate 0 1000; mkCoordinate 0 2000;
   mkCoordinate 0 3000; mkCoordinate 1000 3000; mkCoordinate (-1000) 3000].

Definition chain_graph : NodeBasedDynamicGraph :=
  array_graph [1; 0; 2; 1; 3; 2; 4; 5; 3; 3]%N [0; 1; 3; 5; 8; 9; 10]%N
    (repeat (road false 3) 10).

Definition chain : IntersectionGenerator :=
  mkIntersectionGenerator chain_graph no_restrictions ∅ chain_nodes
    (straight_extractor chain_nodes).

Definition chain_node_set : gset NodeID := list_to_set [0; 1; 2; 3; 4; 5]%N.

(** *** Two parallel edges back to the previous node

    Node 0 is the junction, node 1 lies south of it and node 2 north.
    Edges 0 and 1 both lead from the junction to node 1, edge 2 leads to
    node 2; edge 3: 1->0; edge 4: 2->0. *)
Definition parallel_nodes : list Coordinate :=
  [mkCoordinate 0 0; mkCoordinate 0 (-1000); mkCoordinate 0 1000].

Definition parallel_graph : NodeBasedDynamicGraph :=
  array_graph [1; 1; 2; 0; 0]%N [0; 3; 4; 5]%N (repeat (road false 3) 5).

Definition parallel : IntersectionGenerator :=
  mkIntersectionGenerator parallel_graph no_restrictions ∅ parallel_nodes
    (straight_extractor parallel_nodes).

(** The junction as a shape that lists edge 1 before edge 0. *)
Definition parallel_shape : IntersectionShape :=
  [mkShapeData 1%N 180%float 1000%float; mkShapeData 0%N 180%float 1000%float;
   mkShapeData 2%N 0%float 1000%float].

(** *** The cross entered from the south (previous node 4, edge 7) *)

(** The shape ComputeIntersectionShape returns for the centre of the cross
    without a sorting base, and with the southern neighbour (node 4) as
    sorting base. *)
Definition cross_shape_unaligned : IntersectionShape :=
  [mkShapeData 0%N 90%float 1000%float; mkShapeData 3%N 180%float 1000%float;
   mkShapeData 1%N 270%float 1000%float; mkShapeData 2%N 0%float 1000%float].


(** The roads of the cross in another order. *)
Definition cross_shape : IntersectionShape :=
  [mkShapeData 1%N 270%float 1000%float; mkShapeData 2%N 0%float 1000%float;
   mkShapeData 0%N 90%float 1000%float; mkShapeData 3%N 180%float 1000%float].

(** The view before and after the dead-end policy. *)
Definition cross_initial_view : IntersectionView :=
  Generator.initial_view externals (cross no_restrictions ∅) 4%N 7%N cross_shape 0%float.

Definition cross_relaxed_view : IntersectionView :=
  <[3%nat := mkViewData (mkShapeData 3%N 180%float 1000%float) false 0%float]> cross_initial_view.

(** The view of scenario S1. *)
Definition cross_view : IntersectionView :=
  [mkViewData (mkShapeData 3%N 180%float 1000%float) false 0%float;
   mkViewData (mkShapeData 1%N 270%float 1000%float) true 90%float;
   mkViewData (mkShapeData 2%N 0%float 1000%float) true 180%float;
   mkViewData (mkShapeData 0%N 90%float 1000%float) true 270%float].

(** *** Two roads for mirror *)

(** A road at angle 2^-50 (more than epsilon = 2^-52 away from 0), turning
    left. *)
Definition tiny_angle_road : ConnectedRoad float :=
  mkConnectedRoad
    (mkViewData (mkShapeData 7%N 10%float 25%float) true 0x1p-50%float)
    (mkTurnInstruction 1%N DirectionModifier.Left) 0%N.

(** A road at a right angle, turning slightly right. *)
Definition right_angle_road : ConnectedRoad float :=
  mkConnectedRoad
    (mkViewData (mkShapeData 3%N 100%float 40%float) true 90%float)
    (mkTurnInstruction 2%N DirectionModifier.SlightRight) 1%N.

(** *** Further examples *)

(** An intersection of two roads, the U-turn first. *)
Definition valid_intersection : list (ConnectedRoad float) :=
  [mkConnectedRoad
     (mkViewData (mkShapeData 4%N 180%float 30%float) false 0%float)
     (mkTurnInstruction 0%N DirectionModifier.UTurn) 0%N;
   right_angle_road].

(** A restriction index that forbids every turn. *)
Definition all_restricted : RestrictionMap :=
  mkRestrictionMap (fun _ _ _ => true) (fun _ _ => UINT32_MAX).

(** The junction with the parallel edges after edge 1 was merged into
    edge 0, and its view when entered from node 1. *)
Definition merged_shape : IntersectionShape :=
  [mkShapeData 0%N 180%float 1000%float; mkShapeData 2%N 0%float 1000%float].

Definition merged_view : IntersectionView :=
  [mkViewData (mkShapeData 0%N 180%float 1000%float) false 0%float;
   mkViewData (mkShapeData 2%N 0%float 1000%float) true 180%float].

(** The cross with a barrier at its centre, and its view when entered from
    the south. *)
Definition barrier_cross : IntersectionGenerator := cross no_restrictions {[0%N]}.

Definition barrier_cross_view : IntersectionView :=
  [mkViewData (mkShapeData 3%N 180%float 1000%float) true 0%float;
   mkViewData (mkShapeData 1%N 270%float 1000%float) false 90%float;
   mkViewData (mkShapeData 2%N 0%float 1000%float) false 180%float;
   mkViewData (mkShapeData 0%N 90%float 1000%float) false 270%float].

(** The cross whose arm to the south (edge 3, by which a vehicle coming from
    node 4 would turn back) is an incoming one-way. *)
Definition one_way_cross_graph : NodeBasedDynamicGraph :=
  array_graph [1; 2; 3; 4; 0; 0; 0; 0]%N [0; 4; 5; 6; 7; 8]%N
    (repeat (road false 3) 3 ++ road true 3 :: repeat (road false 3) 4).

Definition one_way_cross : IntersectionGenerator :=
  mkIntersectionGenerator one_way_cross_graph no_restrictions ∅ cross_nodes
    (straight_extractor cross_nodes).

Definition one_way_cross_view : IntersectionView :=
  [mkViewData (mkShapeData 3%N 180%float 1000%float) false 0%float;
   mkViewData (mkShapeData 1%N 270%float 1000%float) true 90%float;
   mkViewData (mkShapeData 2%N 0%float 1000%float) true 180%float;
   mkViewData (mkShapeData 0%N 90%float 1000%float) true 270%float].

End Examples.

(** ** Validity of a view (section 4.C9) *)



(** The first road is the U-turn: its angle is at least 0 and below
    epsilon. *)
Definition leads_with_uturn (view : IntersectionView) : Prop :=
  match view with
  | first :: _ =>
      PrimFloat.leb 0 (angle first) = true /\
      PrimFloat.ltb (angle first) Double.epsilon = true
  | [] => False
  end.


(** * Properties *)

(** ** ConnectedRoad::mirror *)

Section MirrorFacts.
Import DirectionModifier Intersection Examples.

Lemma mirrored_modifier_involutive (m : Enum) :
  mirrored_modifier (mirrored_modifier m) = m.
Proof. destruct m; reflexivity. Qed.

Lemma mirrored_modifiers_size :
  length mirrored_modifiers = MaxDirectionModifier.
Proof. reflexivity. Qed.

Lemma mirror_unfold_far (r : Road) :
  PrimFloat.ltb Double.epsilon (Double.angularDeviation (angle (road_view r)) 0) = true ->
  mirror r = set_angle_modifier r (PrimFloat.sub 360 (angle (road_view r)))
               (mirrored_modifier (direction_modifier (instruction r))).
Proof. intros H. unfold mirror. rewrite H. reflexivity. Qed.

Lemma mirror_unfold_near (r : Road) :
  PrimFloat.ltb Double.epsilon (Double.angularDeviation (angle (road_view r)) 0) = false ->
  mirror r = r.
Proof. intros H. unfold mirror. rewrite H. reflexivity. Qed.

(** C10.  mirror writes at most [angle] and [instruction.direction_modifier]:
    the edge id, the bearing, the segment length, [entry_allowed], the lane
    data id and [instruction.type] of every road are the same before and after
    mirror; getMirroredCopy hands back the receiver as it was and returns the
    mirrored copy. *)
Theorem mirror_frame (r : Road) :
  eid (view_shape (road_view (mirror r))) = eid (view_shape (road_view r)) /\
  bearing (view_shape (road_view (mirror r))) = bearing (view_shape (road_view r)) /\
  segment_length (view_shape (road_view (mirror r))) =
    segment_length (view_shape (road_view r)) /\
  entry_allowed (road_view (mirror r)) = entry_allowed (road_view r) /\
  lane_data_id (mirror r) = lane_data_id r /\
  type (instruction (mirror r)) = type (instruction r) /\
  fst (getMirroredCopy r) = r /\
  snd (getMirroredCopy r) = mirror r.
Proof.
  unfold getMirroredCopy, mirror.
  destruct (PrimFloat.ltb _ _); cbn; repeat split; reflexivity.
Qed.

(** C8, as stated, fails on binary64: 360 - 2^-50 rounds to 360, whose
    deviation from 0 is 0, so the second mirror does nothing and the modifier
    stays flipped. *)
Lemma mirror_twice_not_identity :
  PrimFloat.leb 0 (angle (road_view tiny_angle_road)) = true /\
  PrimFloat.ltb (angle (road_view tiny_angle_road)) 360 = true /\
  direction_modifier (instruction tiny_angle_road) = Left /\
  direction_modifier (instruction (mirror (mirror tiny_angle_road))) = Right /\
  angle (road_view (mirror (mirror tiny_angle_road))) = 360%float.
Proof. vm_compute. repeat split; reflexivity. Qed.

(** C8 (amended).  A road whose angle deviates from 0 by at most epsilon (the
    U-turn entry) is left unchanged by mirror.  A road that mirror reflects,
    and whose reflected angle 360 - angle again deviates from 0 by more than
    epsilon, gets its direction modifier back after a second mirror, every
    other field but the angle is untouched, and the angle becomes
    360 - (360 - angle): the original one up to the rounding of the two
    subtractions, and exactly the original one when they are exact. *)
Theorem mirror_involution (r : Road) :
  let a := angle (road_view r) in
  (PrimFloat.ltb Double.epsilon (Double.angularDeviation a 0) = false ->
   mirror r = r) /\
  (PrimFloat.ltb Double.epsilon (Double.angularDeviation a 0) = true ->
   PrimFloat.ltb Double.epsilon
     (Double.angularDeviation (PrimFloat.sub 360 a) 0) = true ->
   mirror (mirror r) =
     set_angle_modifier r (PrimFloat.sub 360 (PrimFloat.sub 360 a))
       (direction_modifier (instruction r)) /\
   (PrimFloat.sub 360 (PrimFloat.sub 360 a) = a -> mirror (mirror r) = r)).
Proof.
  intros a. split.
  - apply mirror_unfold_near.
  - intros Hfar Hback.
    assert (Htwice : mirror (mirror r) =
      set_angle_modifier r (PrimFloat.sub 360 (PrimFloat.sub 360 a))
        (direction_modifier (instruction r))).
    { rewrite (mirror_unfold_far r Hfar).
      rewrite mirror_unfold_far by exact Hback.
      unfold set_angle_modifier.
      cbn [instruction direction_modifier road_view angle view_shape
           entry_allowed type lane_data_id].
      rewrite mirrored_modifier_involutive. reflexivity. }
    split; [exact Htwice|].
    intros Hexact. rewrite Htwice, Hexact.
    destruct r as [[sh al an] [ty dm] ld]. reflexivity.
Qed.

Lemma mirror_involution_witness :
  mirror (mirror right_angle_road) = right_angle_road /\
  direction_modifier (instruction (mirror right_angle_road)) = SlightLeft /\
  angle (road_view (mirror right_angle_road)) = 270%float.
Proof.
  split; [|split; reflexivity].
  refine (proj2 (proj2 (mirror_involution right_angle_road) _ _) _);
    reflexivity.
Defined.

End MirrorFacts.

(** ** leastSquareRegression *)

Section LeastSquaresFacts.
Import Toolkit.
Variable toFloating : Z -> float.
Variable toFixed : float -> Z.

Local Abbreviation accumulate := (accumulate toFloating).
Local Abbreviation lons := (lons toFloating).
Local Abbreviation lats := (lats toFloating).

(** The single loop of the source computes the six quantities that the
    specification defines one by one. *)
Lemma fold_accumulate (cs : list Coordinate) (s : Sums) :
  fold_left accumulate cs s =
  mkSums
    (fold_left Double.std_min (lons cs) (min_lon s))
    (fold_left Double.std_max (lons cs) (max_lon s))
    (fold_left PrimFloat.add (lons cs) (sum_lon s))
    (fold_left PrimFloat.add (lats cs) (sum_lat s))
    (fold_left PrimFloat.add
       (map (fun c => (toFloating (lon c) * toFloating (lat c))%float) cs)
       (sum_lon_lat s))
    (fold_left PrimFloat.add
       (map (fun c => (toFloating (lon c) * toFloating (lon c))%float) cs)
       (sum_lon_lon s)).
Proof.
  revert s. induction cs as [|c cs IH]; intros s.
  - destruct s; reflexivity.
  - cbn [fold_left]. rewrite IH. reflexivity.
Qed.

(** C7.  On at least two coordinates leastSquareRegression returns a pair
    (no assertion fails): the first and the last input coordinate, verbatim,
    when |n * Sigma lon^2 - (Sigma lon)^2| is below the machine epsilon, and
    otherwise the points of the regression line lat = m * lon + c above the
    longitudes min_lon - 1 and max_lon + 1, with
    m = (n * Sigma (lon * lat) - Sigma lon * Sigma lat) / (n * Sigma lon^2 - (Sigma lon)^2)
    and c = (Sigma lat - m * Sigma lon) / n. *)
Theorem leastSquareRegression_correct (cs : list Coordinate) :
  (2 <= length cs)%nat ->
  exists front rest,
    cs = front :: rest /\
    leastSquareRegression toFloating toFixed cs =
      Some (regression_result toFloating toFixed front cs).
Proof.
  intros Hlen.
  destruct cs as [|front [|second rest]]; cbn [length] in Hlen; try lia.
  exists front, (second :: rest). split; [reflexivity|].
  unfold leastSquareRegression, regression_result.
  rewrite fold_accumulate.
  cbn [min_lon max_lon sum_lon sum_lat sum_lon_lat sum_lon_lon].
  unfold point_on_line, regression_intercept, regression_slope, denominator,
    least_lon, greatest_lon, Sigma_lon, Sigma_lat, Sigma_lon_lat,
    Sigma_lon_lon, float_sum.
  cbv zeta.
  match goal with
  | |- context [PrimFloat.ltb ?a ?b] => destruct (PrimFloat.ltb a b)
  end; reflexivity.
Qed.

End LeastSquaresFacts.

Lemma leastSquareRegression_correct_witness :
  ((2 <= length diagonal_road)%nat /\
   Toolkit.leastSquareRegression MicroDegrees.toFloating MicroDegrees.toFixed
     diagonal_road =
   Some (mkCoordinate (-1000000) (-1000000), mkCoordinate 3000000 3000000)) /\
  ((2 <= length meridian_road)%nat /\
   Toolkit.leastSquareRegression MicroDegrees.toFloating MicroDegrees.toFixed
     meridian_road =
   Some (mkCoordinate 5000000 1000000, mkCoordinate 5000000 9000000)).
Proof.
  split; (split; [cbn; lia|]).
  - destruct (leastSquareRegression_correct MicroDegrees.toFloating
                MicroDegrees.toFixed diagonal_road) as (front & rest & Hcs & ->).
    + cbn; lia.
    + injection Hcs as <- _. vm_compute. reflexivity.
  - destruct (leastSquareRegression_correct MicroDegrees.toFloating
                MicroDegrees.toFixed meridian_road) as (front & rest & Hcs & ->).
    + cbn; lia.
    + injection Hcs as <- _. vm_compute. reflexivity.
Defined.

(** ** The order of binary64 *)

Section FloatOrder.

Lemma SFltb_trans (x y z : spec_float) :
  SFltb x y = true -> SFltb y z = true -> SFltb x z = true.
Proof.
  unfold SFltb.
  destruct x as [[]|[]| |[] mx ex], y as [[]|[]| |[] my ey], z as [[]|[]| |[] mz ez];
    cbn; try discriminate; try reflexivity;
    change (Pos.compare_cont Eq) with Pos.compare;
    destruct (Z.compare_spec ex ey), (Z.compare_spec ey ez), (Z.compare_spec ex ez);
    try discriminate; try reflexivity; try lia; subst;
    destruct (Pos.compare_spec mx my), (Pos.compare_spec my mz),
      (Pos.compare_spec mx mz);
    cbn; try discriminate; try reflexivity; try lia.
Qed.

Lemma SFltb_asym (x y : spec_float) : SFltb x y = true -> SFltb y x = false.
Proof.
  unfold SFltb.
  destruct x as [[]|[]| |[] mx ex], y as [[]|[]| |[] my ey];
    cbn; try discriminate; try reflexivity;
    change (Pos.compare_cont Eq) with Pos.compare;
    destruct (Z.compare_spec ex ey), (Z.compare_spec ey ex);
    try discriminate; try reflexivity; try lia; subst;
    destruct (Pos.compare_spec mx my), (Pos.compare_spec my mx);
    cbn; try discriminate; try reflexivity; try lia.
Qed.

Lemma SFleb_trans (x y z : spec_float) :
  SFleb x y = true -> SFleb y z = true -> SFleb x z = true.
Proof.
  unfold SFleb.
  destruct x as [[]|[]| |[] mx ex], y as [[]|[]| |[] my ey], z as [[]|[]| |[] mz ez];
    cbn; try discriminate; try reflexivity;
    change (Pos.compare_cont Eq) with Pos.compare;
    destruct (Z.compare_spec ex ey), (Z.compare_spec ey ez), (Z.compare_spec ex ez);
    try discriminate; try reflexivity; try lia; subst;
    destruct (Pos.compare_spec mx my), (Pos.compare_spec my mz),
      (Pos.compare_spec mx mz);
    cbn; try discriminate; try reflexivity; try lia.
Qed.

Lemma SFltb_leb (x y : spec_float) : SFltb x y = true -> SFleb x y = true.
Proof.
  unfold SFltb, SFleb. destruct (SFcompare x y) as [[]|]; try discriminate; reflexivity.
Qed.

(** Two doubles that are not NaN are comparable. *)
Lemma SFleb_total (x y : spec_float) :
  SFeqb x x = true -> SFeqb y y = true -> SFltb y x = false -> SFleb x y = true.
Proof.
  unfold SFltb, SFleb, SFeqb.
  destruct x as [[]|[]| |[] mx ex], y as [[]|[]| |[] my ey];
    cbn; try discriminate; try reflexivity;
    change (Pos.compare_cont Eq) with Pos.compare;
    intros _ _;
    destruct (Z.compare_spec ex ey), (Z.compare_spec ey ex);
    try discriminate; try reflexivity; try lia; subst;
    destruct (Pos.compare_spec mx my), (Pos.compare_spec my mx);
    cbn; try discriminate; try reflexivity; try lia.
Qed.

(** [<] on doubles is transitive and asymmetric (a NaN compares less than
    nothing, and nothing compares less than it). *)
Lemma float_ltb_trans (x y z : float) :
  PrimFloat.ltb x y = true -> PrimFloat.ltb y z = true -> PrimFloat.ltb x z = true.
Proof. rewrite !ltb_spec. apply SFltb_trans. Qed.

Lemma float_ltb_asym (x y : float) :
  PrimFloat.ltb x y = true -> PrimFloat.ltb y x = false.
Proof. rewrite !ltb_spec. apply SFltb_asym. Qed.

Lemma float_ltb_irrefl (x : float) : PrimFloat.ltb x x = false.
Proof.
  destruct (PrimFloat.ltb x x) eqn:E; [|reflexivity].
  rewrite (float_ltb_asym x x E) in E. discriminate.
Qed.

Lemma float_leb_trans (x y z : float) :
  PrimFloat.leb x y = true -> PrimFloat.leb y z = true -> PrimFloat.leb x z = true.
Proof. rewrite !leb_spec. apply SFleb_trans. Qed.

Lemma float_ltb_leb (x y : float) :
  PrimFloat.ltb x y = true -> PrimFloat.leb x y = true.
Proof. rewrite ltb_spec, leb_spec. apply SFltb_leb. Qed.

(** [<=] is total on the doubles that are not NaN. *)
Lemma float_leb_total (x y : float) :
  PrimFloat.is_nan x = false -> PrimFloat.is_nan y = false ->
  PrimFloat.ltb y x = false -> PrimFloat.leb x y = true.
Proof.
  unfold PrimFloat.is_nan. rewrite !negb_false_iff, !eqb_spec, ltb_spec, leb_spec.
  apply SFleb_total.
Qed.

Lemma SFleb_ltb_trans (x y z : spec_float) :
  SFleb x y = true -> SFltb y z = true -> SFltb x z = true.
Proof.
  unfold SFleb, SFltb.
  destruct x as [[]|[]| |[] mx ex], y as [[]|[]| |[] my ey], z as [[]|[]| |[] mz ez];
    cbn; try discriminate; try reflexivity;
    change (Pos.compare_cont Eq) with Pos.compare;
    destruct (Z.compare_spec ex ey), (Z.compare_spec ey ez), (Z.compare_spec ex ez);
    try discriminate; try reflexivity; try lia; subst;
    destruct (Pos.compare_spec mx my), (Pos.compare_spec my mz),
      (Pos.compare_spec mx mz);
    cbn; try discriminate; try reflexivity; try lia.
Qed.

Lemma float_leb_ltb_trans (x y z : float) :
  PrimFloat.leb x y = true -> PrimFloat.ltb y z = true -> PrimFloat.ltb x z = true.
Proof. rewrite leb_spec, !ltb_spec. apply SFleb_ltb_trans. Qed.

(** What [<=] relates is not a NaN. *)
Lemma float_leb_number (x y : float) :
  PrimFloat.leb x y = true -> PrimFloat.is_nan y = false.
Proof.
  unfold PrimFloat.is_nan. rewrite negb_false_iff, eqb_spec, leb_spec.
  unfold SFleb, SFeqb.
  destruct (Prim2SF x) as [[]|[]| |[] mx ex], (Prim2SF y) as [[]|[]| |[] my ey];
    cbn; try discriminate; try reflexivity; intros _;
    rewrite Z.compare_refl; change (Pos.compare_cont Eq) with Pos.compare;
    rewrite Pos.compare_refl; reflexivity.
Qed.

End FloatOrder.

(** ** std::find_if, std::count_if, std::sort *)

Section AlgorithmFacts.
Context {A : Type}.
Implicit Types (p : A -> bool) (l : list A).

Lemma find_if_from_Some p l (pos i : nat) (x : A) :
  Std.find_if_from p l pos = Some (i, x) ->
  exists j : nat,
    i = (pos + j)%nat /\ l !! j = Some x /\ p x = true /\
    (forall (k : nat) (y : A), (k < j)%nat -> l !! k = Some y -> p y = false).
Proof.
  revert pos. induction l as [|a l IH]; intros pos H; cbn in H; [discriminate|].
  destruct (p a) eqn:Hpa.
  - injection H as <- <-. exists 0%nat.
    split; [lia|]. split; [reflexivity|]. split; [exact Hpa|].
    intros k y Hk. lia.
  - destruct (IH _ H) as (j & -> & Hj & Hpx & Hbefore).
    exists (S j).
    split; [lia|]. split; [exact Hj|]. split; [exact Hpx|].
    intros [|k] y Hk Hy; cbn in Hy.
    + injection Hy as <-. exact Hpa.
    + apply (Hbefore k); [lia|exact Hy].
Qed.

(** The iterator std::find_if returns points at the first element that
    satisfies the predicate. *)
Lemma find_if_Some p l (i : nat) (x : A) :
  Std.find_if p l = Some (i, x) ->
  l !! i = Some x /\ p x = true /\
  (forall (k : nat) (y : A), (k < i)%nat -> l !! k = Some y -> p y = false).
Proof.
  intros H. destruct (find_if_from_Some _ _ _ _ _ H) as (j & -> & ? & ? & ?).
  cbn. auto.
Qed.

Lemma find_if_from_None p l (pos : nat) :
  Std.find_if_from p l pos = None <-> (forall x, In x l -> p x = false).
Proof.
  revert pos. induction l as [|a l IH]; intros pos; cbn.
  - split; [intros _ x []|reflexivity].
  - destruct (p a) eqn:Hpa.
    + split; [discriminate|]. intros H. rewrite (H a) in Hpa; auto. discriminate.
    + rewrite IH. split.
      * intros H x [<-|Hx]; auto.
      * intros H x Hx. apply H. auto.
Qed.

Lemma find_if_None p l :
  Std.find_if p l = None <-> (forall x, In x l -> p x = false).
Proof. apply find_if_from_None. Qed.

Lemma find_if_In p l (i : nat) (x : A) :
  Std.find_if p l = Some (i, x) -> In x l /\ p x = true.
Proof.
  intros H. destruct (find_if_Some _ _ _ _ H) as (Hi & Hp & _).
  split; [|exact Hp].
  apply list_elem_of_In. eapply list_elem_of_lookup_2. exact Hi.
Qed.

Lemma find_if_is_Some p l (x : A) :
  In x l -> p x = true -> exists i y, Std.find_if p l = Some (i, y).
Proof.
  intros Hx Hp. destruct (Std.find_if p l) as [[i y]|] eqn:E; [eauto|].
  rewrite find_if_None in E. rewrite (E x Hx) in Hp. discriminate.
Qed.

Lemma count_if_filter p l : Std.count_if p l = length (List.filter p l).
Proof.
  induction l as [|a l IH]; cbn; [reflexivity|].
  destruct (p a); cbn; rewrite IH; reflexivity.
Qed.

Lemma insert_ordered_perm (less : A -> A -> bool) (x : A) l :
  Permutation (x :: l) (Std.insert_ordered less x l).
Proof.
  induction l as [|y l IH]; cbn; [reflexivity|].
  destruct (less y x); [|reflexivity].
  rewrite perm_swap. apply perm_skip. exact IH.
Qed.

(** std::sort rearranges; it neither drops nor invents elements. *)
Lemma sort_perm (less : A -> A -> bool) l : Permutation l (Std.sort less l).
Proof.
  induction l as [|x l IH]; cbn; [reflexivity|].
  rewrite <- insert_ordered_perm. apply perm_skip. exact IH.
Qed.

Lemma sort_In (less : A -> A -> bool) l (x : A) :
  In x (Std.sort less l) <-> In x l.
Proof.
  split; apply Permutation_in; [symmetry|]; apply sort_perm.
Qed.

Section Comparator.
(** A comparator that is a strict weak ordering of the elements of [dom]. *)
Variable less : A -> A -> bool.
Variable dom : list A.
Hypothesis less_asym :
  forall a b, In a dom -> In b dom -> less a b = true -> less b a = false.
Hypothesis less_negtrans :
  forall a b c, In a dom -> In b dom -> In c dom ->
    less a c = true -> less a b = true \/ less b c = true.



End Comparator.


Section ByKey.
(** A comparator that compares a binary64 key which is a NaN for no
    element. *)
Variable key : A -> float.
Variable less : A -> A -> bool.
Hypothesis less_key : forall a b, less a b = PrimFloat.ltb (key a) (key b).

Lemma insert_ordered_sorted (x : A) l :
  PrimFloat.is_nan (key x) = false ->
  (forall y, In y l -> PrimFloat.is_nan (key y) = false) ->
  StronglySorted (fun a b => PrimFloat.leb (key a) (key b) = true) l ->
  StronglySorted (fun a b => PrimFloat.leb (key a) (key b) = true)
    (Std.insert_ordered less x l).
Proof.
  intros Hx Hl Hsorted. induction Hsorted as [|y l Hsorted IH Hy]; cbn.
  - constructor; constructor.
  - assert (Hynum : PrimFloat.is_nan (key y) = false) by (apply Hl; left; reflexivity).
    assert (Hrest : forall z, In z l -> PrimFloat.is_nan (key z) = false)
      by (intros z Hz; apply Hl; right; exact Hz).
    rewrite less_key. destruct (PrimFloat.ltb (key y) (key x)) eqn:E.
    + constructor; [exact (IH Hrest)|].
      eapply Permutation_Forall; [apply insert_ordered_perm|].
      constructor; [apply float_ltb_leb; exact E|exact Hy].
    + assert (Hxy : PrimFloat.leb (key x) (key y) = true)
        by (apply float_leb_total; assumption).
      constructor; [constructor; assumption|].
      constructor; [exact Hxy|].
      eapply Forall_impl; [|exact Hy].
      intros z Hz. cbn beta in *.
      eapply float_leb_trans; [exact Hxy|exact Hz].
Qed.

(** The result of std::sort is in ascending order of the key. *)
Lemma sort_sorted l :
  (forall y, In y l -> PrimFloat.is_nan (key y) = false) ->
  StronglySorted (fun a b => PrimFloat.leb (key a) (key b) = true) (Std.sort less l).
Proof.
  induction l as [|x l IH]; intros Hl; cbn; [constructor|].
  apply insert_ordered_sorted.
  - apply Hl. left. reflexivity.
  - intros y Hy. apply Hl. right. apply (sort_In less l y). exact Hy.
  - apply IH. intros y Hy. apply Hl. right. exact Hy.
Qed.

End ByKey.

End AlgorithmFacts.

(** ** IntersectionGenerator *)

Section GeneratorFacts.
Variable ext : Externals.
Variable this : IntersectionGenerator.

Local Abbreviation graph := (node_based_graph this).
Local Abbreviation GetOnlyAllowedTurnIfExistent :=
  (Generator.GetOnlyAllowedTurnIfExistent ext this).

(** *** GetOnlyAllowedTurnIfExistent *)

Lemma node_is_adjacent_iff (node : NodeID) (edges : list EdgeID) :
  Generator.node_is_adjacent this node edges = true <->
  exists onto_edge, In onto_edge edges /\ GetTarget graph onto_edge = node.
Proof.
  induction edges as [|e edges IH]; cbn.
  - split; [discriminate|]. intros (? & [] & _).
  - destruct (N.eqb_spec node (GetTarget graph e)) as [Heq|Hne].
    + split; [|reflexivity]. intros _. exists e. auto.
    + rewrite IH. split.
      * intros (e' & He' & Ht). exists e'. auto.
      * intros (e' & [<-|He'] & Ht); [congruence|]. exists e'. auto.
Qed.

(** C6.  GetOnlyAllowedTurnIfExistent(coming_from_node, node_at_intersection)
    returns Some X exactly when the restriction index reports the only-turn
    target X, X is not the sentinel, and an edge adjacent to
    node_at_intersection has target X.  When the reported target is not
    adjacent, the result is none (a value, not a failure), and the turn
    decisions made with it are those made without any only-turn: a
    destination is restricted iff CheckIfTurnIsRestricted says so. *)
Theorem GetOnlyAllowedTurnIfExistent_correct
    (coming_from_node node_at_intersection : NodeID) :
  let reported :=
    CheckForEmanatingIsOnlyTurn (restriction_map this)
      coming_from_node node_at_intersection in
  let adjacent :=
    exists onto_edge,
      In onto_edge (GetAdjacentEdgeRange graph node_at_intersection) /\
      GetTarget graph onto_edge = reported in
  (forall X : NodeID,
     GetOnlyAllowedTurnIfExistent coming_from_node node_at_intersection = Some X <->
     reported = X /\ X <> SPECIAL_NODEID ext /\ adjacent) /\
  (~ adjacent ->
   GetOnlyAllowedTurnIfExistent coming_from_node node_at_intersection = None) /\
  (forall (entering_via_edge : EdgeID) (destination : NodeID),
     GetTarget graph entering_via_edge = node_at_intersection ->
     ~ adjacent ->
     Generator.is_restricted ext this coming_from_node entering_via_edge destination =
     CheckIfTurnIsRestricted (restriction_map this)
       coming_from_node node_at_intersection destination).
Proof.
  intros reported adjacent.
  assert (Hchar : forall X : NodeID,
     GetOnlyAllowedTurnIfExistent coming_from_node node_at_intersection = Some X <->
     reported = X /\ X <> SPECIAL_NODEID ext /\ adjacent).
  { intros X. unfold Generator.GetOnlyAllowedTurnIfExistent.
    fold reported.
    destruct (N.eqb_spec reported (SPECIAL_NODEID ext)) as [Hs|Hs]; cbn [negb].
    - split; [discriminate|]. intros (<- & Hne & _). contradiction.
    - destruct (Generator.node_is_adjacent this reported _) eqn:Hadj.
      + apply node_is_adjacent_iff in Hadj. split.
        * intros [= <-]. auto.
        * intros (<- & _ & _). reflexivity.
      + split; [discriminate|]. intros (_ & _ & Hex).
        apply node_is_adjacent_iff in Hex. congruence. }
  assert (Hbroken : ~ adjacent ->
     GetOnlyAllowedTurnIfExistent coming_from_node node_at_intersection = None).
  { intros Hna.
    destruct (GetOnlyAllowedTurnIfExistent coming_from_node node_at_intersection)
      as [X|] eqn:E; [|reflexivity].
    destruct (proj1 (Hchar X) eq_refl) as (_ & _ & Hadj). contradiction. }
  split; [exact Hchar|]. split; [exact Hbroken|].
  intros entering_via_edge destination Hvia Hna.
  unfold Generator.is_restricted, Generator.only_valid_turn,
    Generator.node_at_intersection.
  rewrite Hvia, (Hbroken Hna). reflexivity.
Qed.

(** *** TransformIntersectionShapeIntoView *)

Section TransformFacts.
Variable previous_node : NodeID.
Variable entering_via_edge : EdgeID.

Local Abbreviation node_at_intersection :=
  (Generator.node_at_intersection this entering_via_edge).
Local Abbreviation is_barrier_node :=
  (Generator.is_barrier_node this entering_via_edge).
Local Abbreviation connect_to_previous_node :=
  (Generator.connect_to_previous_node this previous_node).
Local Abbreviation is_restricted :=
  (Generator.is_restricted ext this previous_node entering_via_edge).
Local Abbreviation is_allowed_turn :=
  (Generator.is_allowed_turn ext this previous_node entering_via_edge).
Local Abbreviation dead_end_policy :=
  (Generator.dead_end_policy ext this previous_node entering_via_edge).
Local Abbreviation allow_uturn_at_dead_end :=
  (Generator.allow_uturn_at_dead_end ext this previous_node entering_via_edge).
Local Abbreviation is_bidirectional :=
  (Generator.is_bidirectional ext this entering_via_edge).
Local Abbreviation count_bidirectional :=
  (Generator.count_bidirectional ext this entering_via_edge).
Local Abbreviation redecided_entry_allowed :=
  (Generator.redecided_entry_allowed ext this previous_node entering_via_edge).
Local Abbreviation uturn_is_redecided :=
  (Generator.uturn_is_redecided this previous_node entering_via_edge).
Local Abbreviation uturn_slot := (Generator.uturn_slot this previous_node).
Local Abbreviation TransformIntersectionShapeIntoView :=
  (Generator.TransformIntersectionShapeIntoView ext this previous_node entering_via_edge).

Implicit Types (view : IntersectionView) (road : IntersectionShapeData float).

Lemma connect_to_previous_node_iff road :
  connect_to_previous_node road = true <->
  GetTarget graph (eid road) = previous_node.
Proof. unfold Generator.connect_to_previous_node. apply N.eqb_eq. Qed.

Lemma In_list_insert {A : Type} (l : list A) (i : nat) (x y : A) :
  In x (<[i := y]> l) -> x = y \/ In x l.
Proof.
  revert i. induction l as [|a l IH]; intros [|i]; cbn; try tauto.
  - intros [<-|H]; auto.
  - intros [<-|H]; auto. destruct (IH _ H); auto.
Qed.

Lemma map_insert_same {A B : Type} (f : A -> B) (l : list A) (i : nat) (x y : A) :
  l !! i = Some x -> f y = f x -> map f (<[i := y]> l) = map f l.
Proof.
  revert i. induction l as [|a l IH]; intros [|i]; cbn; try discriminate.
  - intros [= ->] ->. reflexivity.
  - intros Hi Hf. f_equal. exact (IH i Hi Hf).
Qed.

(** The position std::find_if finds holds what List.find returns. *)
Lemma find_if_from_find {A : Type} (p : A -> bool) (l : list A) (pos : nat) :
  List.find p l = option_map snd (Std.find_if_from p l pos).
Proof.
  revert pos. induction l as [|a l IH]; intros pos; cbn; [reflexivity|].
  destruct (p a); [reflexivity|apply IH].
Qed.

(** **** The initial decision *)

(** Over a barrier only the road back to previous_node passes the initial
    decision. *)
Lemma is_allowed_turn_barrier road :
  is_barrier_node = true ->
  GetTarget graph (eid road) <> previous_node ->
  is_allowed_turn road = false.
Proof.
  intros Hb Hne. unfold Generator.is_allowed_turn. rewrite Hb.
  apply N.eqb_neq in Hne. rewrite Hne. cbn.
  rewrite andb_false_r. reflexivity.
Qed.

(** **** The dead-end policy *)

Lemma count_bidirectional_correct (edges : list EdgeID) (count n : N) :
  count_bidirectional count edges = Some n ->
  (count + N.of_nat (length edges) < 2 ^ 32)%N ->
  n = (count
       + N.of_nat
           (length
              (List.filter
                 (fun e =>
                    negb (reversed
                            (GetEdgeData graph
                               (FindEdge graph (GetTarget graph e)
                                  node_at_intersection))))
                 edges)))%N.
Proof.
  revert count. induction edges as [|e edges IH]; intros count; cbn [length].
  - cbn. intros [= ->] _. lia.
  - cbn [Generator.count_bidirectional List.filter].
    unfold Generator.is_bidirectional at 1.
    destruct (N.eqb _ (SPECIAL_EDGEID ext)); [discriminate|].
    destruct (reversed _); cbn [negb].
    + intros H Hlt. apply IH in H; lia.
    + intros H Hlt. unfold uint32_wrap in H.
      rewrite N.mod_small in H by lia.
      apply IH in H; [|lia]. cbn [length]. lia.
Qed.

Lemma count_bidirectional_total (edges : list EdgeID) (count : N) :
  (forall e, In e edges ->
     FindEdge graph (GetTarget graph e) node_at_intersection <> SPECIAL_EDGEID ext) ->
  exists n, count_bidirectional count edges = Some n.
Proof.
  revert count. induction edges as [|e edges IH]; intros count Hfound.
  - exists count. reflexivity.
  - cbn [Generator.count_bidirectional]. unfold Generator.is_bidirectional at 1.
    pose proof (Hfound e (or_introl eq_refl)) as He.
    apply N.eqb_neq in He. rewrite He.
    destruct (negb _); apply IH; intros e' He'; apply Hfound; right; exact He'.
Qed.

(** The value the lambda allow_uturn_at_dead_end computes, when its
    assertion holds, is the one the specification describes. *)
Lemma allow_uturn_at_dead_end_correct road (allowed : bool) :
  (N.of_nat (length (GetAdjacentEdgeRange graph node_at_intersection)) < 2 ^ 32)%N ->
  allow_uturn_at_dead_end road = Some allowed ->
  allowed = redecided_entry_allowed road.
Proof.
  intros Hlen. unfold Generator.allow_uturn_at_dead_end,
    Generator.redecided_entry_allowed.
  destruct (reversed _); [intros [= <-]; reflexivity|].
  destruct is_restricted; [intros [= <-]; reflexivity|].
  cbn [negb andb].
  unfold Generator.bidirectional_edges.
  destruct (count_bidirectional 0 _) as [n|] eqn:Hn; [|discriminate].
  cbn. intros [= <-].
  apply count_bidirectional_correct in Hn; [|lia].
  unfold Generator.bidirectional_adjacent_edges. subst n.
  match goal with
  | |- (?a <=? 1)%N = (?b <=? 1)%nat =>
      destruct (N.leb_spec a 1); destruct (Nat.leb_spec b 1);
      try reflexivity; lia
  end.
Qed.

(** C2.  The dead-end policy re-decides the [entry_allowed] of the U-turn
    slot exactly when the view has a road that targets previous_node and
    either (that road is allowed, the node is no barrier and the number of
    allowed exits is not 1) or the number of allowed exits is 0; the slot is
    the first such road, every other road is left as it is, and the value
    assigned is true iff the U-turn edge is not reversed, the turn back to
    previous_node is not restricted (neither by an only-turn towards another
    node nor by the restriction index), and at most one edge adjacent to the
    junction has a reverse edge whose [reversed] flag is false. *)
Theorem dead_end_policy_correct road view (view' : IntersectionView) :
  (N.of_nat (length (GetAdjacentEdgeRange graph node_at_intersection)) < 2 ^ 32)%N ->
  dead_end_policy road view = Some view' ->
  if uturn_is_redecided view
  then exists (position : nat) (slot : IntersectionViewData float),
         uturn_slot view = Some slot /\
         view !! position = Some slot /\
         (forall (k : nat) (r : IntersectionViewData float),
            (k < position)%nat -> view !! k = Some r ->
            GetTarget graph (eid (view_shape r)) <> previous_node) /\
         view' = <[position := Generator.set_entry_allowed slot
                                 (redecided_entry_allowed road)]> view
  else view' = view.
Proof.
  intros Hlen. unfold Generator.dead_end_policy, Generator.uturn_is_redecided,
    Generator.uturn_slot, Generator.number_of_allowed_exits.
  rewrite (find_if_from_find _ view 0). fold (Std.find_if
    (fun r : IntersectionViewData float => connect_to_previous_node (view_shape r)) view).
  rewrite count_if_filter.
  destruct (Std.find_if _ view) as [[position slot]|] eqn:Hfind; cbn [option_map snd].
  - destruct (_ || _).
    + destruct (allow_uturn_at_dead_end road) as [allowed|] eqn:Hallow;
        [|discriminate].
      cbn. intros [= <-].
      apply allow_uturn_at_dead_end_correct in Hallow; [|exact Hlen]. subst allowed.
      apply find_if_Some in Hfind. destruct Hfind as (Hpos & _ & Hbefore).
      exists position, slot. split; [reflexivity|]. split; [exact Hpos|].
      split; [|reflexivity].
      intros k r Hk Hr Htarget.
      apply connect_to_previous_node_iff in Htarget.
      rewrite (Hbefore k r Hk Hr) in Htarget. discriminate.
    + intros [= <-]. reflexivity.
  - intros [= <-]. reflexivity.
Qed.

(** The policy fails on no junction whose adjacent edges all have a reverse
    edge. *)
Lemma dead_end_policy_total road view :
  (forall e, In e (GetAdjacentEdgeRange graph node_at_intersection) ->
     FindEdge graph (GetTarget graph e) node_at_intersection <> SPECIAL_EDGEID ext) ->
  exists view', dead_end_policy road view = Some view'.
Proof.
  intros Hfound. unfold Generator.dead_end_policy.
  destruct (Std.find_if _ view) as [[position slot]|]; [|eauto].
  destruct (_ || _); [|eauto].
  unfold Generator.allow_uturn_at_dead_end.
  destruct (reversed _); [cbn; eauto|].
  destruct is_restricted; [cbn; eauto|].
  unfold Generator.bidirectional_edges.
  destruct (count_bidirectional_total _ 0%N Hfound) as [n ->]. cbn. eauto.
Qed.

(** The policy touches nothing but the [entry_allowed] of a road that
    targets previous_node. *)
Lemma dead_end_policy_frame road view (view' : IntersectionView) :
  dead_end_policy road view = Some view' ->
  map angle view' = map angle view /\
  map view_shape view' = map view_shape view /\
  (forall r, In r view' ->
     In r view \/ GetTarget graph (eid (view_shape r)) = previous_node).
Proof.
  unfold Generator.dead_end_policy.
  destruct (Std.find_if _ view) as [[position slot]|] eqn:Hfind.
  - destruct (_ || _).
    + destruct (allow_uturn_at_dead_end road) as [allowed|]; [|discriminate].
      cbn. intros [= <-].
      apply find_if_Some in Hfind. destruct Hfind as (Hpos & Hslot & _).
      split; [apply (map_insert_same _ _ _ slot); [exact Hpos|reflexivity]|].
      split; [apply (map_insert_same _ _ _ slot); [exact Hpos|reflexivity]|].
      intros r Hr. apply In_list_insert in Hr. destruct Hr as [->|Hr]; [|auto].
      right. apply connect_to_previous_node_iff. exact Hslot.
    + intros [= <-]. auto.
  - intros [= <-]. auto.
Qed.

(** **** The view as a whole *)

Section Shapes.
Variable normalised_intersection : IntersectionShape.
Variable intersection : IntersectionShape.
Variable performed_merges : list (EdgeID * EdgeID).

Local Abbreviation uturn_bearing :=
  (Generator.uturn_bearing ext this previous_node normalised_intersection
     performed_merges).
Local Abbreviation initial_view :=
  (Generator.initial_view ext this previous_node entering_via_edge
     normalised_intersection).
Local Abbreviation Transform :=
  (TransformIntersectionShapeIntoView normalised_intersection intersection
     performed_merges).

(** The closing assertion lets a view through only if its first road has
    an angle in [0, epsilon). *)
Lemma checked_view_Some (sorted view : IntersectionView) :
  Generator.checked_view sorted = Some view ->
  view = sorted /\ leads_with_uturn view.
Proof.
  unfold Generator.checked_view. destruct sorted as [|first rest]; [discriminate|].
  destruct (PrimFloat.leb 0 (angle first)) eqn:Hlow; [|discriminate].
  destruct (PrimFloat.ltb (angle first) Double.epsilon) eqn:Hhigh; [|discriminate].
  cbn [andb]. intros H. apply (inj Some) in H. subst view.
  split; [reflexivity|]. cbn. auto.
Qed.

(** How TransformIntersectionShapeIntoView arrives at a view. *)
Lemma Transform_Some view :
  Transform = Some view ->
  exists (position : nat) road (base : float) (relaxed : IntersectionView),
    Generator.uturn_edge_itr this previous_node intersection = Some (position, road) /\
    uturn_bearing road = Some base /\
    dead_end_policy road (initial_view base) = Some relaxed /\
    view = Std.sort Generator.CompareByAngle relaxed.
Proof.
  unfold Generator.TransformIntersectionShapeIntoView.
  destruct (Generator.uturn_edge_itr _ _ _) as [[position road]|] eqn:Hu;
    [|discriminate].
  cbn. destruct (uturn_bearing road) as [base|] eqn:Hb; [|discriminate].
  cbn. destruct (dead_end_policy road (initial_view base)) as [relaxed|] eqn:Hp;
    [|discriminate].
  cbn. intros H. apply checked_view_Some in H. destruct H as [-> _].
  exists position, road, base, relaxed.
  split; [reflexivity|]. split; [exact Hb|]. split; [exact Hp|reflexivity].
Qed.



(** C3.  At a barrier node the initial decision admits no road but the one
    back to previous_node, and in the view that is returned every road with
    another target still has [entry_allowed = false]: the dead-end policy
    writes to a road that targets previous_node only. *)
Theorem barrier_allows_only_uturn :
  node_at_intersection ∈ barrier_nodes this ->
  (forall road,
     GetTarget graph (eid road) <> previous_node ->
     is_allowed_turn road = false) /\
  (forall view,
     Transform = Some view ->
     forall r, In r view ->
       GetTarget graph (eid (view_shape r)) <> previous_node ->
       entry_allowed r = false).
Proof.
  intros Hbarrier.
  assert (Hb : is_barrier_node = true).
  { unfold Generator.is_barrier_node. apply bool_decide_eq_true. exact Hbarrier. }
  split; [intros road; apply is_allowed_turn_barrier; exact Hb|].
  intros view H r Hr Htarget.
  apply Transform_Some in H.
  destruct H as (position & road & base & relaxed & _ & _ & Hpolicy & ->).
  apply sort_In in Hr.
  apply dead_end_policy_frame in Hpolicy. destruct Hpolicy as (_ & _ & Hframe).
  destruct (Hframe r Hr) as [Hinit|Hprev]; [|contradiction].
  unfold Generator.initial_view in Hinit. apply in_map_iff in Hinit.
  destruct Hinit as (x & <- & _). cbn in *.
  apply is_allowed_turn_barrier; assumption.
Qed.

Lemma find_if_from_filter {A : Type} (p : A -> bool) (l : list A)
    (pos i : nat) (x : A) :
  Std.find_if_from p l pos = Some (i, x) ->
  exists rest, List.filter p l = x :: rest.
Proof.
  revert pos. induction l as [|a l IH]; intros pos; cbn; [discriminate|].
  destruct (p a); [intros [= _ <-]; eauto|apply IH].
Qed.

(** C5 (amended).  The U-turn edge is the first road, in the order of the
    pre-merge intersection, whose target is previous_node; the merge lookup
    and the dead-end policy use this road.  Without such a road the method
    does not return a view.  The road has the least edge id among the roads
    that target previous_node whenever these are listed in ascending order
    of their edge ids. *)
Theorem uturn_edge_is_first_match :
  match Generator.uturn_edge_itr this previous_node intersection with
  | Some (position, uturn_edge) =>
      intersection !! position = Some uturn_edge /\
      GetTarget graph (eid uturn_edge) = previous_node /\
      (forall (k : nat) road,
         (k < position)%nat -> intersection !! k = Some road ->
         GetTarget graph (eid road) <> previous_node) /\
      Transform =
        (base ← uturn_bearing uturn_edge;
         relaxed ← dead_end_policy uturn_edge (initial_view base);
         Generator.checked_view (Std.sort Generator.CompareByAngle relaxed)) /\
      (StronglySorted (fun a b => (eid a <= eid b)%N)
         (List.filter connect_to_previous_node intersection) ->
       forall road, In road intersection ->
         GetTarget graph (eid road) = previous_node ->
         (eid uturn_edge <= eid road)%N)
  | None =>
      (forall road, In road intersection ->
         GetTarget graph (eid road) <> previous_node) /\
      Transform = None
  end.
Proof.
  unfold Generator.TransformIntersectionShapeIntoView.
  destruct (Generator.uturn_edge_itr this previous_node intersection)
    as [[position uturn_edge]|] eqn:Hfind; unfold Generator.uturn_edge_itr in Hfind.
  - pose proof (find_if_Some _ _ _ _ Hfind) as (Hpos & Hprev & Hbefore).
    split; [exact Hpos|].
    split; [apply connect_to_previous_node_iff; exact Hprev|].
    split.
    { intros k road Hk Hroad Htarget.
      apply connect_to_previous_node_iff in Htarget.
      rewrite (Hbefore k road Hk Hroad) in Htarget. discriminate. }
    split; [reflexivity|].
    intros Hsorted road Hin Htarget.
    destruct (find_if_from_filter _ _ _ _ _ Hfind) as (rest & Hfilter).
    rewrite Hfilter in Hsorted.
    assert (Hroad : In road (uturn_edge :: rest)).
    { rewrite <- Hfilter. apply filter_In. split; [exact Hin|].
      apply connect_to_previous_node_iff. exact Htarget. }
    destruct Hroad as [<-|Hroad]; [apply N.le_refl|].
    apply StronglySorted_inv in Hsorted. destruct Hsorted as [_ Hall].
    rewrite List.Forall_forall in Hall. exact (Hall road Hroad).
  - split; [|reflexivity].
    intros road Hin Htarget.
    apply connect_to_previous_node_iff in Htarget.
    rewrite (proj1 (find_if_None _ _) Hfind road Hin) in Htarget. discriminate.
Qed.

End Shapes.

End TransformFacts.

(** *** The entry points *)

Local Abbreviation GetConnectedRoads := (Generator.GetConnectedRoads ext this).
Local Abbreviation ComputeIntersectionShape :=
  (Generator.ComputeIntersectionShape ext this).
Local Abbreviation skip_step := (Generator.skip_step ext this).
Local Abbreviation skip_trivial_nodes := (Generator.skip_trivial_nodes ext this).
Local Abbreviation GetActualNextIntersection :=
  (Generator.GetActualNextIntersection ext this).



(** *** ComputeIntersectionShape *)



(** *** GetActualNextIntersection: the skip loop *)

Section SkipLoop.
Variable starting_node : NodeID.

(** What an iteration that reaches the end of the body has done. *)
Lemma skip_step_Continue (w w' : Generator.Walk) :
  skip_step starting_node w = Generator.Continue w' ->
  (Generator.query_node w ∉ Generator.visited_nodes w) /\
  Generator.visited_nodes w' = {[Generator.query_node w]} ∪ Generator.visited_nodes w /\
  Generator.query_node w' = GetTarget graph (Generator.query_edge w) /\
  Generator.get_next_edge this (Generator.query_node w) (Generator.query_edge w)
    = Some (Generator.query_edge w') /\
  IsCompatibleTo ext (GetEdgeData graph (Generator.query_edge w))
                     (GetEdgeData graph (Generator.query_edge w')) = true /\
  GetTarget graph (Generator.query_edge w') <> starting_node.
Proof.
  unfold Generator.skip_step, Generator.skip_guard.
  destruct (bool_decide _) eqn:Hvisited; cbn [andb]; [|discriminate].
  apply bool_decide_eq_true in Hvisited.
  destruct (N.eqb _ 2); [|discriminate].
  destruct (Generator.get_next_edge _ _ _) as [next_edge|] eqn:Hnext; [|discriminate].
  destruct (IsCompatibleTo ext _ _) eqn:Hcompatible; cbn [negb orb]; [|discriminate].
  destruct (N.eqb_spec (GetTarget graph next_edge) starting_node) as [|Hback];
    [discriminate|].
  intros [= <-]. cbn.
  split; [exact Hvisited|]. split; [reflexivity|]. split; [reflexivity|].
  split; [reflexivity|]. split; [exact Hcompatible|exact Hback].
Qed.

(** The body breaks, with the query unchanged, when the continuation is
    incompatible or leads back to the starting node. *)
Lemma skip_step_break (w : Generator.Walk) (next_edge : EdgeID) :
  Generator.skip_guard this w = true ->
  Generator.get_next_edge this (Generator.query_node w) (Generator.query_edge w)
    = Some next_edge ->
  IsCompatibleTo ext (GetEdgeData graph (Generator.query_edge w))
                     (GetEdgeData graph next_edge) = false \/
  GetTarget graph next_edge = starting_node ->
  skip_step starting_node w =
  Generator.Leave
    (Generator.mkWalk ({[Generator.query_node w]} ∪ Generator.visited_nodes w)
       (Generator.query_node w) (Generator.query_edge w)).
Proof.
  intros Hguard Hnext Hstop. unfold Generator.skip_step.
  rewrite Hguard, Hnext.
  destruct Hstop as [-> | ->]; [reflexivity|].
  rewrite N.eqb_refl, orb_true_r. reflexivity.
Qed.

(** The assertion of get_next_edge holds whenever the guard does. *)
Lemma skip_step_not_Failed (w : Generator.Walk) :
  skip_step starting_node w <> Generator.Failed.
Proof.
  unfold Generator.skip_step, Generator.skip_guard, Generator.get_next_edge.
  destruct (bool_decide _); cbn [andb]; [|discriminate].
  destruct (N.eqb _ 2); [|discriminate].
  destruct (_ || _); discriminate.
Qed.

Section FiniteGraph.
(** The nodes of the graph. *)
Variable nodes : gset NodeID.
Hypothesis targets_are_nodes : forall e : EdgeID, GetTarget graph e ∈ nodes.

Lemma skip_step_progress (w w' : Generator.Walk) :
  Generator.walk_in_graph nodes w ->
  skip_step starting_node w = Generator.Continue w' ->
  Generator.walk_in_graph nodes w' /\
  size (Generator.visited_nodes w') = S (size (Generator.visited_nodes w)).
Proof.
  intros [Hsub Hnode] Hstep.
  apply skip_step_Continue in Hstep.
  destruct Hstep as (Hfresh & Hvisited & Hquery & _).
  unfold Generator.walk_in_graph. rewrite Hvisited, Hquery. split; [split|].
  - apply union_subseteq. split; [|exact Hsub].
    apply singleton_subseteq_l. exact Hnode.
  - apply targets_are_nodes.
  - rewrite size_union by (apply disjoint_singleton_l; exact Hfresh).
    rewrite size_singleton. reflexivity.
Qed.

(** With more evaluations of the guard allowed than there are nodes not yet
    visited, the loop comes to its end. *)
Lemma skip_trivial_nodes_terminates (fuel : nat) (w : Generator.Walk) :
  Generator.walk_in_graph nodes w ->
  (size nodes - size (Generator.visited_nodes w) < fuel)%nat ->
  exists w', skip_trivial_nodes fuel starting_node w = Generator.Returned w'.
Proof.
  revert w. induction fuel as [|fuel IH]; intros w Hw Hfuel; [lia|].
  cbn [Generator.skip_trivial_nodes].
  destruct (skip_step starting_node w) as [w'| w' |] eqn:Hstep.
  - destruct (skip_step_progress w w' Hw Hstep) as (Hw' & Hsize).
    apply IH; [exact Hw'|].
    pose proof (subseteq_size _ _ (proj1 Hw')) as Hbound. lia.
  - eauto.
  - exfalso. exact (skip_step_not_Failed w Hstep).
Qed.

(** A run that has come to its end is not changed by more fuel. *)
Lemma skip_trivial_nodes_more_fuel (fuel fuel' : nat) (w w' : Generator.Walk) :
  skip_trivial_nodes fuel starting_node w = Generator.Returned w' ->
  (fuel <= fuel')%nat ->
  skip_trivial_nodes fuel' starting_node w = Generator.Returned w'.
Proof.
  revert fuel' w. induction fuel as [|fuel IH]; intros fuel' w; [discriminate|].
  destruct fuel' as [|fuel']; [lia|]. cbn [Generator.skip_trivial_nodes].
  destruct (skip_step starting_node w); try (intros; assumption).
  intros H Hle. apply (IH fuel'); [exact H|lia].
Qed.

(** The loop only adds to the visited set, and only nodes of the graph. *)
Lemma skip_trivial_nodes_visited (fuel : nat) (w w' : Generator.Walk) :
  Generator.walk_in_graph nodes w ->
  skip_trivial_nodes fuel starting_node w = Generator.Returned w' ->
  Generator.visited_nodes w ⊆ Generator.visited_nodes w' /\
  Generator.visited_nodes w' ⊆ nodes.
Proof.
  revert w. induction fuel as [|fuel IH]; intros w Hw; [discriminate|].
  cbn [Generator.skip_trivial_nodes].
  destruct (skip_step starting_node w) as [w1| w1 |] eqn:Hstep; try discriminate.
  - intros H. destruct (skip_step_progress w w1 Hw Hstep) as (Hw1 & _).
    destruct (IH w1 Hw1 H) as (Hsub & Hin).
    apply skip_step_Continue in Hstep. destruct Hstep as (_ & Hv & _).
    split; [|exact Hin].
    etrans; [|exact Hsub]. rewrite Hv. apply union_subseteq_r.
  - intros [= <-]. revert Hstep. unfold Generator.skip_step.
    destruct (Generator.skip_guard this w).
    + destruct (Generator.get_next_edge _ _ _); [|discriminate].
      destruct (_ || _); [|discriminate].
      intros [= <-]. cbn. destruct Hw as [Hsub Hnode].
      split; [apply union_subseteq_r|].
      apply union_subseteq. split; [|exact Hsub].
      apply singleton_subseteq_l. exact Hnode.
    + intros [= <-]. destruct Hw as [Hsub _]. split; [reflexivity|exact Hsub].
Qed.

End FiniteGraph.

End SkipLoop.

(** C9.  On a graph with finitely many nodes GetActualNextIntersection comes
    to an end: once more evaluations of the loop guard are allowed than the
    graph has nodes, the result no longer depends on the allowance and is
    never "out of fuel"; the nodes the loop has inserted into the visited set
    are nodes of the graph, so there are at most as many iterations as nodes.
    An iteration that runs to the end of the body inserts the query node it
    started at (the position before the advance), which the guard has just
    found not to be visited, and advances along a compatible edge that does
    not lead back to starting_node; when the continuation is incompatible or
    leads back to starting_node, the loop stops with the query unchanged. *)
Theorem GetActualNextIntersection_terminates (nodes : gset NodeID)
    (starting_node : NodeID) (via_edge : EdgeID) :
  starting_node ∈ nodes ->
  (forall e : EdgeID, GetTarget graph e ∈ nodes) ->
  (exists w : Generator.Walk,
     Generator.visited_nodes w ⊆ nodes /\
     (size (Generator.visited_nodes w) <= size nodes)%nat /\
     forall fuel : nat,
       (size nodes < fuel)%nat ->
       skip_trivial_nodes fuel starting_node
         (Generator.mkWalk ∅ starting_node via_edge) = Generator.Returned w /\
       GetActualNextIntersection fuel starting_node via_edge <> Generator.OutOfFuel /\
       GetActualNextIntersection fuel starting_node via_edge =
       GetActualNextIntersection (S (size nodes)) starting_node via_edge) /\
  (forall w w' : Generator.Walk,
     skip_step starting_node w = Generator.Continue w' ->
     (Generator.query_node w ∉ Generator.visited_nodes w) /\
     Generator.visited_nodes w' = {[Generator.query_node w]} ∪ Generator.visited_nodes w /\
     Generator.query_node w' = GetTarget graph (Generator.query_edge w) /\
     IsCompatibleTo ext (GetEdgeData graph (Generator.query_edge w))
                        (GetEdgeData graph (Generator.query_edge w')) = true /\
     GetTarget graph (Generator.query_edge w') <> starting_node) /\
  (forall (w : Generator.Walk) (next_edge : EdgeID),
     Generator.skip_guard this w = true ->
     Generator.get_next_edge this (Generator.query_node w) (Generator.query_edge w)
       = Some next_edge ->
     IsCompatibleTo ext (GetEdgeData graph (Generator.query_edge w))
                        (GetEdgeData graph next_edge) = false \/
     GetTarget graph next_edge = starting_node ->
     skip_step starting_node w =
     Generator.Leave
       (Generator.mkWalk ({[Generator.query_node w]} ∪ Generator.visited_nodes w)
          (Generator.query_node w) (Generator.query_edge w))).
Proof.
  intros Hstart Htargets.
  set (w0 := Generator.mkWalk ∅ starting_node via_edge).
  assert (Hw0 : Generator.walk_in_graph nodes w0).
  { split; cbn; [apply empty_subseteq|exact Hstart]. }
  destruct (skip_trivial_nodes_terminates starting_node nodes Htargets
              (S (size nodes)) w0 Hw0) as [w Hw]; [cbn; lia|].
  split; [|split].
  - exists w.
    destruct (skip_trivial_nodes_visited starting_node nodes Htargets _ _ _ Hw0 Hw)
      as (_ & Hsub).
    split; [exact Hsub|]. split; [apply subseteq_size; exact Hsub|].
    intros fuel Hfuel.
    assert (Hrun : skip_trivial_nodes fuel starting_node w0 = Generator.Returned w).
    { apply (skip_trivial_nodes_more_fuel starting_node (S (size nodes)));
        [exact Hw|lia]. }
    split; [exact Hrun|].
    unfold Generator.GetActualNextIntersection. fold w0. rewrite Hrun, Hw.
    split; [|reflexivity].
    destruct (Generator.GetConnectedRoads _ _ _ _ _); discriminate.
  - intros w1 w2 Hstep. apply skip_step_Continue in Hstep. tauto.
  - apply skip_step_break.
Qed.

End GeneratorFacts.

(** ** The properties on the example networks *)

Section Scenarios.
Import Examples.

Local Abbreviation plain_cross := (cross no_restrictions ∅).

Lemma cross_GetConnectedRoads :
  Generator.GetConnectedRoads externals plain_cross 4%N 7%N false = Some cross_view.
Proof. vm_compute. reflexivity. Qed.


Lemma dead_end_policy_correct_witness :
  (N.of_nat (length (GetAdjacentEdgeRange (node_based_graph plain_cross)
                       (Generator.node_at_intersection plain_cross 7%N)))
   < 2 ^ 32)%N /\
  Generator.dead_end_policy externals plain_cross 4%N 7%N
    (mkShapeData 3%N 180%float 1000%float) cross_initial_view = Some cross_relaxed_view /\
  exists (position : nat) (slot : IntersectionViewData float),
    Generator.uturn_slot plain_cross 4%N cross_initial_view = Some slot /\
    cross_initial_view !! position = Some slot /\
    (forall (k : nat) (r : IntersectionViewData float),
       (k < position)%nat -> cross_initial_view !! k = Some r ->
       GetTarget (node_based_graph plain_cross) (eid (view_shape r)) <> 4%N) /\
    cross_relaxed_view =
      <[position := Generator.set_entry_allowed slot
                      (Generator.redecided_entry_allowed externals plain_cross
                         4%N 7%N (mkShapeData 3%N 180%float 1000%float))]>
        cross_initial_view.
Proof.
  assert (Hlen : (N.of_nat (length (GetAdjacentEdgeRange (node_based_graph plain_cross)
                       (Generator.node_at_intersection plain_cross 7%N)))
                  < 2 ^ 32)%N) by reflexivity.
  assert (Hrun : Generator.dead_end_policy externals plain_cross 4%N 7%N
            (mkShapeData 3%N 180%float 1000%float) cross_initial_view
          = Some cross_relaxed_view) by (vm_compute; reflexivity).
  pose proof (dead_end_policy_correct externals plain_cross 4%N 7%N
                (mkShapeData 3%N 180%float 1000%float) cross_initial_view _ Hlen Hrun) as H.
  assert (Hredecided :
    Generator.uturn_is_redecided plain_cross 4%N 7%N cross_initial_view = true)
    by reflexivity.
  rewrite Hredecided in H.
  split; [exact Hlen|]. split; [exact Hrun|exact H].
Defined.

(** Scenario S3: the centre of the cross is a barrier. *)
Lemma barrier_allows_only_uturn_witness :
  Generator.node_at_intersection (cross no_restrictions {[0%N]}) 7%N
    ∈ barrier_nodes (cross no_restrictions {[0%N]}) /\
  Generator.is_allowed_turn externals (cross no_restrictions {[0%N]}) 4%N 7%N
    (mkShapeData 2%N 0%float 1000%float) = false /\
  (forall view,
     Generator.GetConnectedRoads externals (cross no_restrictions {[0%N]})
       4%N 7%N false = Some view ->
     forall r, In r view ->
       GetTarget cross_graph (eid (view_shape r)) <> 4%N ->
       entry_allowed r = false).
Proof.
  assert (Hbarrier :
    Generator.node_at_intersection (cross no_restrictions {[0%N]}) 7%N
      ∈ barrier_nodes (cross no_restrictions {[0%N]})).
  { change (0%N ∈ ({[0%N]} : gset N)). apply elem_of_singleton. reflexivity. }
  destruct (barrier_allows_only_uturn externals (cross no_restrictions {[0%N]})
              4%N 7%N cross_shape cross_shape [] Hbarrier) as [Hinitial Hview].
  split; [exact Hbarrier|]. split.
  - apply Hinitial. vm_compute. discriminate.
  - intros view Hroads. apply Hview.
    rewrite <- Hroads. vm_compute. reflexivity.
Defined.


(** C5, as stated, fails: of the two parallel edges back to node 1 the
    method takes edge 1, the first in the order of the shape, although
    edge 0 targets node 1 as well; the method accepts the input. *)
Lemma uturn_edge_not_minimal :
  Generator.uturn_edge_itr parallel 1%N parallel_shape
    = Some (0%nat, mkShapeData 1%N 180%float 1000%float) /\
  In (mkShapeData 0%N 180%float 1000%float) parallel_shape /\
  GetTarget parallel_graph 0%N = 1%N /\
  (0 < 1)%N /\
  Generator.TransformIntersectionShapeIntoView_unmerged externals parallel
    1%N 3%N parallel_shape
  = Some [mkViewData (mkShapeData 1%N 180%float 1000%float) false 0%float;
          mkViewData (mkShapeData 0%N 180%float 1000%float) true 0%float;
          mkViewData (mkShapeData 2%N 0%float 1000%float) true 180%float].
Proof.
  split; [reflexivity|]. split; [cbn; tauto|]. split; [reflexivity|].
  split; [reflexivity|]. vm_compute. reflexivity.
Qed.

(** Scenario S4 and a broken only-turn restriction. *)
Lemma GetOnlyAllowedTurnIfExistent_correct_witness :
  Generator.GetOnlyAllowedTurnIfExistent externals (cross only_east ∅) 4%N 0%N
    = Some 1%N /\
  Generator.GetOnlyAllowedTurnIfExistent externals (cross only_node_9 ∅) 4%N 0%N
    = None /\
  Generator.GetConnectedRoads externals (cross only_node_9 ∅) 4%N 7%N false
    = Generator.GetConnectedRoads externals plain_cross 4%N 7%N false.
Proof.
  split; [|split].
  - apply (proj1 (GetOnlyAllowedTurnIfExistent_correct externals
                    (cross only_east ∅) 4%N 0%N)).
    split; [reflexivity|]. split; [discriminate|].
    exists 0%N. split; [vm_compute; tauto|reflexivity].
  - apply (proj1 (proj2 (GetOnlyAllowedTurnIfExistent_correct externals
                           (cross only_node_9 ∅) 4%N 0%N))).
    intros (e & He & Ht). vm_compute in He.
    destruct He as [<-|[<-|[<-|[<-|[]]]]]; discriminate Ht.
  - vm_compute. reflexivity.
Defined.

(** Scenario S5: the chain of trivial nodes. *)
Lemma chain_targets_are_nodes (e : EdgeID) :
  GetTarget (node_based_graph chain) e ∈ chain_node_set.
Proof.
  unfold chain, chain_graph, array_graph, chain_node_set.
  cbn [node_based_graph GetTarget].
  generalize (N.to_nat e). intros n.
  assert (Hall : forall x : N, In x [0; 1; 2; 3; 4; 5]%N ->
                         x ∈ (list_to_set [0; 1; 2; 3; 4; 5]%N : gset N)).
  { intros x Hx. apply elem_of_list_to_set, list_elem_of_In. exact Hx. }
  do 10 (destruct n as [|n]; [apply Hall; cbn; tauto|]).
  destruct n; apply Hall; cbn; tauto.
Qed.

Lemma GetActualNextIntersection_terminates_witness :
  (0%N ∈ chain_node_set) /\
  (forall e : EdgeID, GetTarget (node_based_graph chain) e ∈ chain_node_set) /\
  Generator.GetActualNextIntersection externals chain 7 0%N 0%N
    <> Generator.OutOfFuel /\
  Generator.GetActualNextIntersection externals chain 3 0%N 0%N
    = Generator.Returned
        ([mkViewData (mkShapeData 5%N 180%float 1000%float) false 0%float;
          mkViewData (mkShapeData 7%N 270%float 1000%float) true 90%float;
          mkViewData (mkShapeData 6%N 90%float 1000%float) true 270%float],
         2%N, 4%N).
Proof.
  assert (Hstart : 0%N ∈ chain_node_set).
  { apply elem_of_list_to_set, list_elem_of_In. cbn. tauto. }
  destruct (GetActualNextIntersection_terminates externals chain chain_node_set
              0%N 0%N Hstart chain_targets_are_nodes)
    as ((w & _ & _ & Hrun) & _ & _).
  split; [exact Hstart|]. split; [exact chain_targets_are_nodes|].
  split.
  - apply (Hrun 7%nat). vm_compute. lia.
  - vm_compute. reflexivity.
Defined.

End Scenarios.

(** * Further properties of the code *)

(** ** findClosestTurn *)

Section ClosestTurnFacts.
Context {R : Type}.
Variable get_angle : R -> float.
Variable target_angle : float.

Local Abbreviation deviation :=
  (fun road : R => Double.angularDeviation (get_angle road) target_angle).
Local Abbreviation closer := (IntersectionLookup.closer_to get_angle target_angle).

(** The scan of std::min_element keeps an element that no element seen so
    far is closer than, and that differs in deviation from every element
    before it. *)
Lemma min_element_from_closest (l seen : list R) (smallest_pos : nat) (smallest : R) :
  seen !! smallest_pos = Some smallest ->
  (forall x, In x seen -> closer x smallest = false) ->
  (forall (j : nat) (x : R),
     (j < smallest_pos)%nat -> seen !! j = Some x -> deviation x <> deviation smallest) ->
  exists r : R,
    (seen ++ l) !! Std.min_element_from closer smallest_pos smallest (length seen) l
      = Some r /\
    (forall x, In x (seen ++ l) -> closer x r = false) /\
    (forall (j : nat) (x : R),
       (j < Std.min_element_from closer smallest_pos smallest (length seen) l)%nat ->
       (seen ++ l) !! j = Some x -> deviation x <> deviation r).
Proof.
  revert seen smallest_pos smallest.
  induction l as [|x l IH]; intros seen smallest_pos smallest Hpos Hleast Hfirst.
  - cbn [Std.min_element_from]. rewrite app_nil_r. eauto.
  - cbn [Std.min_element_from].
    replace (seen ++ x :: l) with ((seen ++ [x]) ++ l)
      by (rewrite <- app_assoc; reflexivity).
    replace (S (length seen)) with (length (seen ++ [x]))
      by (rewrite length_app; cbn; lia).
    destruct (closer x smallest) eqn:Hx.
    + apply IH.
      * rewrite lookup_app_r by lia. rewrite Nat.sub_diag. reflexivity.
      * intros y Hy. apply in_app_or in Hy. destruct Hy as [Hy|[<-|[]]].
        -- destruct (closer y x) eqn:Hyx; [|reflexivity].
           pose proof (float_ltb_trans _ _ _ Hyx Hx) as Hys.
           unfold IntersectionLookup.closer_to in Hleast.
           rewrite (Hleast y Hy) in Hys. discriminate.
        -- apply float_ltb_irrefl.
      * intros j y Hj Hy Heq.
        rewrite lookup_app_l in Hy by exact Hj.
        assert (Hin : In y seen).
        { apply list_elem_of_In. eapply list_elem_of_lookup_2. exact Hy. }
        pose proof (Hleast y Hin) as Hys.
        unfold IntersectionLookup.closer_to in Hys, Hx. cbn beta in Heq.
        rewrite Heq, Hx in Hys. discriminate.
    + apply IH.
      * rewrite lookup_app_l by (eapply lookup_lt_Some; exact Hpos). exact Hpos.
      * intros y Hy. apply in_app_or in Hy. destruct Hy as [Hy|[<-|[]]]; auto.
      * intros j y Hj Hy.
        rewrite lookup_app_l in Hy
          by (apply lookup_lt_Some in Hpos; lia).
        exact (Hfirst j y Hj Hy).
Qed.

(** X1: findClosestTurn returns end() on an empty container; otherwise the
    road it points at has a deviation from the queried angle that no road of
    the container undercuts, and among the roads of that deviation it is the
    first. *)
Theorem findClosestTurn_closest (this : list R) :
  match this with
  | [] => IntersectionLookup.findClosestTurn get_angle this target_angle = length this
  | _ :: _ =>
      exists r : R,
        this !! IntersectionLookup.findClosestTurn get_angle this target_angle = Some r /\
        (forall x, In x this ->
           PrimFloat.ltb (deviation x) (deviation r) = false) /\
        (forall (j : nat) (x : R),
           (j < IntersectionLookup.findClosestTurn get_angle this target_angle)%nat ->
           this !! j = Some x -> deviation x <> deviation r)
  end.
Proof.
  unfold IntersectionLookup.findClosestTurn, IntersectionLookup.findClosestTurn_const.
  destruct this as [|first rest]; [reflexivity|].
  rewrite Nat.sub_0_r, Nat.add_0_l. cbn [Std.min_element].
  apply (min_element_from_closest rest [first] 0%nat first).
  - reflexivity.
  - intros x [<-|[]]. apply float_ltb_irrefl.
  - intros j x Hj. lia.
Qed.

End ClosestTurnFacts.

(** ** Intersection::valid and mirror *)

Section ValidFacts.
Import Intersection.

(** An angle in [0, epsilon) deviates from 0 by less than epsilon. *)
Lemma small_angle_deviation (a : float) :
  PrimFloat.leb 0 a = true ->
  PrimFloat.ltb a Double.epsilon = true ->
  PrimFloat.ltb (PrimFloat.abs (PrimFloat.sub a 0)) Double.epsilon = true.
Proof.
  rewrite leb_spec, !ltb_spec, abs_spec, sub_spec.
  change (Prim2SF 0) with (S754_zero false).
  unfold SF64sub.
  destruct (Prim2SF a) as [[]|[]| |[] m e]; cbn; try discriminate; auto.
Qed.

Lemma small_angle_not_mirrored (a : float) :
  PrimFloat.leb 0 a = true ->
  PrimFloat.ltb a Double.epsilon = true ->
  PrimFloat.ltb Double.epsilon (Double.angularDeviation a 0) = false.
Proof.
  intros Hlo Hhi.
  pose proof (small_angle_deviation a Hlo Hhi) as Hd.
  unfold Double.angularDeviation, Double.std_min.
  destruct (PrimFloat.ltb (PrimFloat.sub 360 _) _) eqn:Hmin.
  - apply float_ltb_asym. exact (float_ltb_trans _ _ _ Hmin Hd).
  - apply float_ltb_asym. exact Hd.
Qed.

(** X2: the first road of an intersection that valid() accepts, when its
    angle is not negative, is left as it is by mirror; and valid() accepts
    no empty intersection. *)
Theorem valid_leading_road_not_mirrored (this : list Road) :
  IntersectionLookup.valid this = true ->
  exists (first : Road) (rest : list Road),
    this = first :: rest /\
    PrimFloat.ltb (angle (road_view first)) Double.epsilon = true /\
    (PrimFloat.leb 0 (angle (road_view first)) = true -> mirror first = first).
Proof.
  unfold IntersectionLookup.valid.
  destruct this as [|first rest]; [discriminate|].
  intros H. apply andb_true_iff in H. destruct H as [_ Hsmall].
  exists first, rest. split; [reflexivity|]. split; [exact Hsmall|].
  intros Hlo. apply mirror_unfold_near.
  apply small_angle_not_mirrored; assumption.
Qed.

End ValidFacts.

(** ** getLaneCountAtIntersection *)

Section LaneCountFacts.
Variable node_based_graph : NodeBasedDynamicGraph.

Local Abbreviation lanes_of :=
  (fun e : EdgeID => number_of_lanes (road_classification (GetEdgeData node_based_graph e))).

Lemma fold_max_lanes (edges : list EdgeID) (lanes : N) :
  let result := fold_left (fun lanes e => N.max lanes (lanes_of e)) edges lanes in
  (lanes <= result)%N /\
  (forall e, In e edges -> (lanes_of e <= result)%N) /\
  (result = lanes \/ exists e, In e edges /\ result = lanes_of e).
Proof.
  revert lanes. induction edges as [|e edges IH]; intros lanes; cbn.
  - split; [lia|]. split; [intros e []|]. left. reflexivity.
  - destruct (IH (N.max lanes (lanes_of e))) as (Hge & Hall & Hhit).
    split; [lia|]. split.
    + intros e' [<-|He']; [lia|]. apply Hall. exact He'.
    + destruct Hhit as [Hhit|(e' & He' & Hhit)].
      * destruct (N.max_spec lanes (lanes_of e)) as [[_ Hmax]|[_ Hmax]].
        -- right. exists e. split; [left; reflexivity|]. cbn in *. congruence.
        -- left. cbn in *. congruence.
      * right. exists e'. split; [right; exact He'|exact Hhit].
Qed.

(** X3: getLaneCountAtIntersection is the greatest lane count among the
    edges adjacent to the node: no adjacent edge has more lanes, and the
    count is that of some adjacent edge, or 0, which it is at a node
    without edges. *)
Theorem getLaneCountAtIntersection_max (intersection_node : NodeID) :
  let lanes := getLaneCountAtIntersection intersection_node node_based_graph in
  let edges := GetAdjacentEdgeRange node_based_graph intersection_node in
  (forall e, In e edges -> (lanes_of e <= lanes)%N) /\
  (lanes = 0%N \/ exists e, In e edges /\ lanes = lanes_of e) /\
  (edges = [] -> lanes = 0%N).
Proof.
  intros lanes edges. unfold lanes, getLaneCountAtIntersection. fold edges.
  destruct (fold_max_lanes edges 0%N) as (_ & Hall & Hhit).
  split; [exact Hall|]. split; [exact Hhit|].
  intros ->. reflexivity.
Qed.

End LaneCountFacts.

(** ** leastSquareRegression: the extreme longitudes *)

Section RegressionExtras.
Import Toolkit.
Variable toFloating : Z -> float.
Variable toFixed : float -> Z.

Local Abbreviation lon_of := (fun c : Coordinate => toFloating (lon c)).

(** The running minimum of the loop is the longitude of a coordinate seen so
    far that no longitude seen so far is less than. *)
Lemma fold_std_min (cs seen : list Coordinate) (least : Coordinate) :
  In least seen ->
  (forall c, In c seen -> PrimFloat.ltb (lon_of c) (lon_of least) = false) ->
  exists c_min,
    In c_min (seen ++ cs) /\
    fold_left Double.std_min (lons toFloating cs) (lon_of least) = lon_of c_min /\
    (forall c, In c (seen ++ cs) -> PrimFloat.ltb (lon_of c) (lon_of c_min) = false).
Proof.
  revert seen least. induction cs as [|x cs IH]; intros seen least Hin Hleast.
  - exists least. rewrite app_nil_r. auto.
  - cbn [lons map fold_left].
    replace (seen ++ x :: cs) with ((seen ++ [x]) ++ cs)
      by (rewrite <- app_assoc; reflexivity).
    unfold Double.std_min at 2.
    destruct (PrimFloat.ltb (lon_of x) (lon_of least)) eqn:Hx.
    + apply (IH (seen ++ [x]) x).
      * apply in_or_app. right. left. reflexivity.
      * intros c Hc. apply in_app_or in Hc. destruct Hc as [Hc|[<-|[]]].
        -- destruct (PrimFloat.ltb (lon_of c) (lon_of x)) eqn:Hcx; [|reflexivity].
           rewrite <- (Hleast c Hc). symmetry.
           exact (float_ltb_trans _ _ _ Hcx Hx).
        -- apply float_ltb_irrefl.
    + apply (IH (seen ++ [x]) least).
      * apply in_or_app. left. exact Hin.
      * intros c Hc. apply in_app_or in Hc.
        destruct Hc as [Hc|[<-|[]]]; [auto|exact Hx].
Qed.

Lemma fold_std_max (cs seen : list Coordinate) (greatest : Coordinate) :
  In greatest seen ->
  (forall c, In c seen -> PrimFloat.ltb (lon_of greatest) (lon_of c) = false) ->
  exists c_max,
    In c_max (seen ++ cs) /\
    fold_left Double.std_max (lons toFloating cs) (lon_of greatest) = lon_of c_max /\
    (forall c, In c (seen ++ cs) -> PrimFloat.ltb (lon_of c_max) (lon_of c) = false).
Proof.
  revert seen greatest. induction cs as [|x cs IH]; intros seen greatest Hin Hgreatest.
  - exists greatest. rewrite app_nil_r. auto.
  - cbn [lons map fold_left].
    replace (seen ++ x :: cs) with ((seen ++ [x]) ++ cs)
      by (rewrite <- app_assoc; reflexivity).
    unfold Double.std_max at 2.
    destruct (PrimFloat.ltb (lon_of greatest) (lon_of x)) eqn:Hx.
    + apply (IH (seen ++ [x]) x).
      * apply in_or_app. right. left. reflexivity.
      * intros c Hc. apply in_app_or in Hc. destruct Hc as [Hc|[<-|[]]].
        -- destruct (PrimFloat.ltb (lon_of x) (lon_of c)) eqn:Hxc; [|reflexivity].
           rewrite <- (Hgreatest c Hc). symmetry.
           exact (float_ltb_trans _ _ _ Hx Hxc).
        -- apply float_ltb_irrefl.
    + apply (IH (seen ++ [x]) greatest).
      * apply in_or_app. left. exact Hin.
      * intros c Hc. apply in_app_or in Hc.
        destruct Hc as [Hc|[<-|[]]]; [auto|exact Hx].
Qed.

(** X4: when the regression is not degenerate, the two points returned lie
    one degree beyond the extreme longitudes of the input: their longitudes
    are toFixed(lon_min - 1) and toFixed(lon_max + 1) for longitudes lon_min
    and lon_max of input coordinates such that no input longitude is less
    than lon_min or greater than lon_max. *)
Theorem leastSquareRegression_extremes (cs : list Coordinate)
    (regression_first regression_end : Coordinate) :
  leastSquareRegression toFloating toFixed cs = Some (regression_first, regression_end) ->
  PrimFloat.ltb (PrimFloat.abs (denominator toFloating cs)) Double.epsilon = false ->
  exists c_min c_max,
    In c_min cs /\ In c_max cs /\
    lon regression_first = toFixed (lon_of c_min - 1)%float /\
    lon regression_end = toFixed (lon_of c_max + 1)%float /\
    (forall c, In c cs ->
       PrimFloat.ltb (lon_of c) (lon_of c_min) = false /\
       PrimFloat.ltb (lon_of c_max) (lon_of c) = false).
Proof.
  destruct cs as [|front [|second rest]]; try discriminate.
  unfold leastSquareRegression. rewrite fold_accumulate.
  set (cs := front :: second :: rest).
  cbn [min_lon max_lon sum_lon sum_lat sum_lon_lat sum_lon_lon].
  unfold denominator, Sigma_lon, Sigma_lon_lon, float_sum.
  intros H Hregular. cbv zeta in H. rewrite Hregular in H.
  apply (inj Some) in H. apply pair_equal_spec in H. destruct H as [<- <-].
  cbn [lon].
  destruct (fold_std_min cs [front] front) as (c_min & Hmin_in & Hmin & Hleast).
  { left. reflexivity. }
  { intros c [<-|[]]. apply float_ltb_irrefl. }
  destruct (fold_std_max cs [front] front) as (c_max & Hmax_in & Hmax & Hgreatest).
  { left. reflexivity. }
  { intros c [<-|[]]. apply float_ltb_irrefl. }
  assert (Hsub : forall c, In c ([front] ++ cs) -> In c cs).
  { intros c [<-|Hc]; [left; reflexivity|exact Hc]. }
  exists c_min, c_max.
  split; [apply Hsub; exact Hmin_in|]. split; [apply Hsub; exact Hmax_in|].
  rewrite Hmin, Hmax. split; [reflexivity|]. split; [reflexivity|].
  intros c Hc. split; [apply Hleast|apply Hgreatest]; right; exact Hc.
Qed.

End RegressionExtras.

(** ** More on IntersectionGenerator *)

Section GeneratorExtras.
Variable ext : Externals.
Variable this : IntersectionGenerator.

Local Abbreviation graph := (node_based_graph this).
Local Abbreviation ComputeIntersectionShape :=
  (Generator.ComputeIntersectionShape ext this).
Local Abbreviation GetConnectedRoads := (Generator.GetConnectedRoads ext this).
Local Abbreviation shape_entry := (Generator.shape_entry ext this).

(** *** ComputeIntersectionShape *)

(** The pair the two precision modes agree on. *)
Local Abbreviation edge_and_length :=
  (fun data : IntersectionShapeData float => (eid data, segment_length data)).

Lemma shape_entries_Some (entry : EdgeID -> option (IntersectionShapeData float))
    (edges : list EdgeID) (intersection : IntersectionShape) :
  Generator.shape_entries entry edges = Some intersection ->
  Forall2 (fun e data => entry e = Some data) edges intersection.
Proof.
  revert intersection. induction edges as [|e edges IH]; intros intersection; cbn.
  - intros [= <-]. constructor.
  - destruct (entry e) as [data|] eqn:He; [|discriminate]. cbn.
    destruct (Generator.shape_entries entry edges) as [rest|]; [|discriminate].
    cbn. intros [= <-]. constructor; [exact He|]. apply IH. reflexivity.
Qed.

Lemma shape_entries_is_Some (entry : EdgeID -> option (IntersectionShapeData float))
    (edges : list EdgeID) :
  is_Some (Generator.shape_entries entry edges) <->
  (forall e, In e edges -> is_Some (entry e)).
Proof.
  induction edges as [|e edges IH]; cbn.
  - split; [intros _ e []|eauto].
  - destruct (entry e) as [data|] eqn:He; cbn.
    + destruct (Generator.shape_entries entry edges) as [rest|]; cbn.
      * split; [|eauto]. intros _ e' [<-|He']; [rewrite He; eauto|].
        apply IH; eauto.
      * split; [intros [? [=]]|]. intros H. exfalso.
        destruct (proj2 IH (fun e' He' => H e' (or_intror He'))) as [? [=]].
    + split; [intros [? [=]]|]. intros H. exfalso.
      destruct (H e (or_introl eq_refl)) as [d Hd]. rewrite He in Hd. discriminate.
Qed.

(** Two entry functions that agree up to a projection give entry lists that
    agree up to it. *)
Lemma shape_entries_ext {B : Type} (f : IntersectionShapeData float -> B)
    (entry entry' : EdgeID -> option (IntersectionShapeData float)) (edges : list EdgeID) :
  (forall e, In e edges -> option_map f (entry e) = option_map f (entry' e)) ->
  option_map (map f) (Generator.shape_entries entry edges) =
  option_map (map f) (Generator.shape_entries entry' edges).
Proof.
  induction edges as [|e edges IH]; intros H; cbn; [reflexivity|].
  pose proof (H e (or_introl eq_refl)) as He.
  assert (IH' := IH (fun e' He' => H e' (or_intror He'))).
  destruct (entry e), (entry' e); cbn in *; try discriminate; [|reflexivity].
  destruct (Generator.shape_entries entry edges),
           (Generator.shape_entries entry' edges); cbn in *; try discriminate;
    [|reflexivity].
  congruence.
Qed.

Lemma shape_entry_Some (node : NodeID) (degree lanes : N) (c : Coordinate)
    (low : bool) (e : EdgeID) (data : IntersectionShapeData float) :
  shape_entry node degree lanes c low e = Some data ->
  e <> SPECIAL_EDGEID ext /\ eid data = e.
Proof.
  unfold Generator.shape_entry.
  destruct (N.eqb_spec e (SPECIAL_EDGEID ext)); [discriminate|].
  intros [= <-]. auto.
Qed.

Lemma shape_entry_is_Some (node : NodeID) (degree lanes : N) (c : Coordinate)
    (low : bool) (e : EdgeID) :
  is_Some (shape_entry node degree lanes c low e) <-> e <> SPECIAL_EDGEID ext.
Proof.
  unfold Generator.shape_entry.
  destruct (N.eqb_spec e (SPECIAL_EDGEID ext)).
  - split; [intros [? [=]]|contradiction].
  - split; [auto|eauto].
Qed.

Lemma shape_entries_eids (node : NodeID) (degree lanes : N) (c : Coordinate)
    (low : bool) (edges : list EdgeID) (intersection : IntersectionShape) :
  Generator.shape_entries (shape_entry node degree lanes c low) edges
    = Some intersection ->
  map eid intersection = edges.
Proof.
  intros H. apply shape_entries_Some in H.
  induction H as [|e data edges' rest He _ IH]; cbn; [reflexivity|].
  apply shape_entry_Some in He. destruct He as [_ ->]. rewrite IH. reflexivity.
Qed.

(** The entries before they are sorted. *)
Lemma ComputeIntersectionShape_Some (node : NodeID) (sorting_base : option NodeID)
    (low : bool) (shape : IntersectionShape) :
  ComputeIntersectionShape node sorting_base low = Some shape ->
  exists (c : Coordinate) (intersection : IntersectionShape),
    node_info_list this !! N.to_nat node = Some c /\
    Generator.shape_entries
      (shape_entry node (GetOutDegree graph node)
         (getLaneCountAtIntersection node graph) c low)
      (GetAdjacentEdgeRange graph node) = Some intersection /\
    Permutation intersection shape /\
    map eid intersection = GetAdjacentEdgeRange graph node.
Proof.
  unfold Generator.ComputeIntersectionShape.
  destruct (node_info_list this !! _) as [c|] eqn:Hc; [|discriminate].
  cbn [mbind option_bind].
  destruct (Generator.shape_entries _ _) as [intersection|] eqn:Hentries;
    [|discriminate].
  cbn [mbind option_bind]. intros Hshape.
  exists c, intersection. split; [reflexivity|]. split; [exact Hentries|]. split.
  - destruct intersection as [|first rest]; apply (inj Some) in Hshape; subst shape;
      [reflexivity|apply sort_perm].
  - exact (shape_entries_eids _ _ _ _ _ _ _ Hentries).
Qed.

(** The edge ids of a shape are the adjacent edges of the node. *)
Lemma ComputeIntersectionShape_eids (node : NodeID) (sorting_base : option NodeID)
    (low : bool) (shape : IntersectionShape) :
  ComputeIntersectionShape node sorting_base low = Some shape ->
  Permutation (map eid shape) (GetAdjacentEdgeRange graph node) /\
  length shape = length (GetAdjacentEdgeRange graph node).
Proof.
  intros H. apply ComputeIntersectionShape_Some in H.
  destruct H as (c & intersection & _ & _ & Hperm & Heids).
  rewrite <- Heids. split.
  - apply Permutation_map. symmetry. exact Hperm.
  - rewrite length_map. symmetry. apply Permutation_length. exact Hperm.
Qed.

(** When a shape is returned. *)
Lemma ComputeIntersectionShape_is_Some (node : NodeID)
    (sorting_base : option NodeID) (low : bool) :
  is_Some (ComputeIntersectionShape node sorting_base low) <->
  (N.to_nat node < length (node_info_list this))%nat /\
  (forall e, In e (GetAdjacentEdgeRange graph node) -> e <> SPECIAL_EDGEID ext).
Proof.
  unfold Generator.ComputeIntersectionShape.
  destruct (node_info_list this !! N.to_nat node) as [c|] eqn:Hc;
    cbn [mbind option_bind].
  - apply lookup_lt_Some in Hc.
    destruct (Generator.shape_entries _ _) as [intersection|] eqn:Hentries;
      cbn [mbind option_bind].
    + split.
      * intros _. split; [exact Hc|]. intros e He.
        assert (Hall := proj1 (shape_entries_is_Some
                  (shape_entry node (GetOutDegree graph node)
                     (getLaneCountAtIntersection node graph) c low)
                  (GetAdjacentEdgeRange graph node))).
        rewrite Hentries in Hall.
        exact (proj1 (shape_entry_is_Some _ _ _ _ _ _)
                 (Hall (ex_intro _ _ eq_refl) e He)).
      * intros _. destruct intersection; eauto.
    + split; [intros [? [=]]|]. intros [_ Hedges]. exfalso.
      assert (Hsome : is_Some (Generator.shape_entries
                (shape_entry node (GetOutDegree graph node)
                   (getLaneCountAtIntersection node graph) c low)
                (GetAdjacentEdgeRange graph node))).
      { apply shape_entries_is_Some. intros e He.
        apply shape_entry_is_Some. apply Hedges. exact He. }
      rewrite Hentries in Hsome. destruct Hsome as [? [=]].
  - apply lookup_ge_None in Hc. split; [intros [? [=]]|]. intros [Hlt _]. lia.
Qed.

(** X5: the shape has exactly one entry for every edge adjacent to the node,
    whatever the sorting base and the precision. *)
Theorem ComputeIntersectionShape_edges (node : NodeID) (sorting_base : option NodeID)
    (low : bool) (shape : IntersectionShape) :
  ComputeIntersectionShape node sorting_base low = Some shape ->
  Permutation (map eid shape) (GetAdjacentEdgeRange graph node) /\
  length shape = length (GetAdjacentEdgeRange graph node).
Proof.
  exact (ComputeIntersectionShape_eids node sorting_base low shape).
Qed.

(** X6: ComputeIntersectionShape returns a shape exactly when the node has a
    coordinate in node_info_list and none of its adjacent edges is the
    sentinel SPECIAL_EDGEID. *)
Theorem ComputeIntersectionShape_defined (node : NodeID)
    (sorting_base : option NodeID) (low : bool) :
  is_Some (ComputeIntersectionShape node sorting_base low) <->
  (N.to_nat node < length (node_info_list this))%nat /\
  (forall e, In e (GetAdjacentEdgeRange graph node) -> e <> SPECIAL_EDGEID ext).
Proof.
  exact (ComputeIntersectionShape_is_Some node sorting_base low).
Qed.

(** X7: the precision mode and the sorting base change neither the edges of
    the shape nor their segment lengths, and have no say in whether a shape
    is returned: only bearings and the order depend on them. *)
Theorem ComputeIntersectionShape_precision (node : NodeID)
    (sorting_base sorting_base' : option NodeID) :
  match ComputeIntersectionShape node sorting_base true,
        ComputeIntersectionShape node sorting_base' false with
  | Some low_shape, Some high_shape =>
      Permutation (map edge_and_length low_shape) (map edge_and_length high_shape)
  | None, None => True
  | _, _ => False
  end.
Proof.
  destruct (ComputeIntersectionShape node sorting_base true) as [low_shape|] eqn:Hlow,
           (ComputeIntersectionShape node sorting_base' false) as [high_shape|] eqn:Hhigh.
  - apply ComputeIntersectionShape_Some in Hlow, Hhigh.
    destruct Hlow as (c & l1 & Hc & H1 & Hp1 & _).
    destruct Hhigh as (c' & l2 & Hc' & H2 & Hp2 & _).
    rewrite Hc in Hc'. injection Hc' as <-.
    rewrite <- Hp1, <- Hp2.
    assert (Heq : Some (map edge_and_length l1) = Some (map edge_and_length l2)).
    { change (option_map (map edge_and_length) (Some l1)
              = option_map (map edge_and_length) (Some l2)).
      rewrite <- H1, <- H2. apply shape_entries_ext.
      intros e _. unfold Generator.shape_entry.
      destruct (N.eqb e (SPECIAL_EDGEID ext)); reflexivity. }
    injection Heq as ->. reflexivity.
  - assert (Hd : is_Some (ComputeIntersectionShape node sorting_base' false)).
    { apply ComputeIntersectionShape_is_Some.
      apply (ComputeIntersectionShape_is_Some node sorting_base true).
      rewrite Hlow. eauto. }
    rewrite Hhigh in Hd. destruct Hd as [? [=]].
  - assert (Hd : is_Some (ComputeIntersectionShape node sorting_base true)).
    { apply ComputeIntersectionShape_is_Some.
      apply (ComputeIntersectionShape_is_Some node sorting_base' false).
      rewrite Hhigh. eauto. }
    rewrite Hlow in Hd. destruct Hd as [? [=]].
  - exact I.
Qed.

(** X8: at a node of out-degree at most 2 the precision mode makes no
    difference at all. *)
Theorem ComputeIntersectionShape_low_degree (node : NodeID)
    (sorting_base : option NodeID) (low : bool) :
  (GetOutDegree graph node <= 2)%N ->
  ComputeIntersectionShape node sorting_base low =
  ComputeIntersectionShape node sorting_base true.
Proof.
  intros Hdegree. apply N.leb_le in Hdegree.
  unfold Generator.ComputeIntersectionShape, Generator.shape_entry.
  rewrite Hdegree, orb_true_r. reflexivity.
Qed.

(** X9: a sorting base that no adjacent edge leads to is ignored: the shape
    is the one computed without a sorting base. *)
Theorem ComputeIntersectionShape_base_not_adjacent (node sorting_base : NodeID)
    (low : bool) :
  (forall e, In e (GetAdjacentEdgeRange graph node) ->
     GetTarget graph e <> sorting_base) ->
  ComputeIntersectionShape node (Some sorting_base) low =
  ComputeIntersectionShape node None low.
Proof.
  intros Hnone. unfold Generator.ComputeIntersectionShape.
  destruct (node_info_list this !! _) as [c|]; [|reflexivity].
  cbn [mbind option_bind].
  destruct (Generator.shape_entries _ _) as [intersection|] eqn:Hentries;
    [|reflexivity].
  cbn [mbind option_bind].
  destruct intersection as [|first rest]; [reflexivity|].
  set (intersection := first :: rest) in *. clearbody intersection.
  unfold Generator.base_bearing.
  replace (Std.find_if _ intersection) with (@None (nat * IntersectionShapeData float));
    [reflexivity|].
  symmetry. apply find_if_None. intros data Hdata.
  apply N.eqb_neq. apply Hnone.
  rewrite <- (shape_entries_eids _ _ _ _ _ _ _ Hentries).
  apply in_map. exact Hdata.
Qed.

End GeneratorExtras.

(** *** TransformIntersectionShapeIntoView and GetConnectedRoads *)

Section TransformExtras.
Variable ext : Externals.
Variable this : IntersectionGenerator.
Variable previous_node : NodeID.
Variable entering_via_edge : EdgeID.

Local Abbreviation graph := (node_based_graph this).
Local Abbreviation node_at_intersection :=
  (Generator.node_at_intersection this entering_via_edge).
Local Abbreviation only_valid_turn :=
  (Generator.only_valid_turn ext this previous_node entering_via_edge).
Local Abbreviation connect_to_previous_node :=
  (Generator.connect_to_previous_node this previous_node).
Local Abbreviation is_restricted :=
  (Generator.is_restricted ext this previous_node entering_via_edge).
Local Abbreviation is_allowed_turn :=
  (Generator.is_allowed_turn ext this previous_node entering_via_edge).
Local Abbreviation dead_end_policy :=
  (Generator.dead_end_policy ext this previous_node entering_via_edge).
Local Abbreviation allow_uturn_at_dead_end :=
  (Generator.allow_uturn_at_dead_end ext this previous_node entering_via_edge).
Local Abbreviation initial_view :=
  (Generator.initial_view ext this previous_node entering_via_edge).
Local Abbreviation Transform :=
  (Generator.TransformIntersectionShapeIntoView ext this previous_node
     entering_via_edge).
Local Abbreviation target_of :=
  (fun r : IntersectionViewData float => GetTarget graph (eid (view_shape r))).

Implicit Types (view relaxed : IntersectionView) (road : IntersectionShapeData float).

(** What the policy does when it does anything. *)
Lemma dead_end_policy_cases road view relaxed :
  dead_end_policy road view = Some relaxed ->
  relaxed = view \/
  exists (position : nat) (slot : IntersectionViewData float) (allowed : bool),
    view !! position = Some slot /\
    target_of slot = previous_node /\
    (entry_allowed slot = true \/ Std.count_if (fun r => entry_allowed r) view = 0%nat) /\
    allow_uturn_at_dead_end road = Some allowed /\
    relaxed = <[position := Generator.set_entry_allowed slot allowed]> view.
Proof.
  unfold Generator.dead_end_policy.
  destruct (Std.find_if _ view) as [[position slot]|] eqn:Hfind;
    [|intros [= <-]; auto].
  destruct (_ || _) eqn:Hcond; [|intros [= <-]; auto].
  destruct (allow_uturn_at_dead_end road) as [allowed|]; [|discriminate].
  cbn. intros [= <-]. right. exists position, slot, allowed.
  apply find_if_Some in Hfind. destruct Hfind as (Hpos & Hslot & _).
  split; [exact Hpos|].
  split; [apply N.eqb_eq; exact Hslot|].
  split; [|split; reflexivity].
  apply orb_true_iff in Hcond. destruct Hcond as [Hcond|Hcond].
  - left. apply andb_true_iff in Hcond. destruct Hcond as [Hcond _].
    apply andb_true_iff in Hcond. tauto.
  - right. apply Nat.eqb_eq. exact Hcond.
Qed.

Lemma allow_uturn_at_dead_end_true road :
  allow_uturn_at_dead_end road = Some true ->
  reversed (GetEdgeData graph (eid road)) = false /\
  is_restricted previous_node = false.
Proof.
  unfold Generator.allow_uturn_at_dead_end.
  destruct (reversed _); [discriminate|].
  destruct is_restricted; [discriminate|]. auto.
Qed.

Lemma is_restricted_false (destination : NodeID) :
  is_restricted destination = false ->
  CheckIfTurnIsRestricted (restriction_map this)
    previous_node node_at_intersection destination = false /\
  (forall only, only_valid_turn = Some only -> destination = only).
Proof.
  unfold Generator.is_restricted.
  destruct only_valid_turn as [only|].
  - destruct (N.eqb_spec only destination) as [->|]; cbn; [|discriminate].
    intros ->. split; [reflexivity|]. intros ? [= <-]. reflexivity.
  - intros ->. split; [reflexivity|]. discriminate.
Qed.

Lemma is_allowed_turn_true road :
  is_allowed_turn road = true ->
  reversed (GetEdgeData graph (eid road)) = false /\
  is_restricted (GetTarget graph (eid road)) = false.
Proof.
  unfold Generator.is_allowed_turn. intros H.
  apply andb_true_iff in H. destruct H as [H Hr].
  apply andb_true_iff in H. destruct H as [Hrev _].
  apply negb_true_iff in Hrev, Hr. auto.
Qed.

Lemma count_if_zero {A : Type} (p : A -> bool) (l : list A) :
  Std.count_if p l = 0%nat <-> (forall x, In x l -> p x = false).
Proof.
  induction l as [|a l IH]; cbn.
  - split; [intros _ x []|reflexivity].
  - destruct (p a) eqn:Ha.
    + split; [discriminate|]. intros H. rewrite (H a) in Ha by auto. discriminate.
    + rewrite IH. split.
      * intros H x [<-|Hx]; auto.
      * intros H x Hx. apply H. auto.
Qed.

Lemma count_if_insert_le {A : Type} (p : A -> bool) (l : list A) (i : nat) (y : A) :
  Std.count_if p l = 0%nat -> (Std.count_if p (<[i := y]> l) <= 1)%nat.
Proof.
  revert i. induction l as [|a l IH]; intros i; cbn.
  { intros _. destruct i; cbn; lia. }
  destruct (p a) eqn:Ha; [discriminate|]. intros Hl.
  destruct i as [|i]; cbn.
  - rewrite Hl. destruct (p y); lia.
  - rewrite Ha. apply IH. exact Hl.
Qed.

Lemma count_if_perm {A : Type} (p : A -> bool) (l l' : list A) :
  Permutation l l' -> Std.count_if p l = Std.count_if p l'.
Proof.
  induction 1 as [|x l l' _ IH|x y l|l l' l'' _ IH1 _ IH2]; cbn.
  - reflexivity.
  - rewrite IH. reflexivity.
  - destruct (p x), (p y); reflexivity.
  - congruence.
Qed.

Section Shapes.
Variable normalised_intersection : IntersectionShape.
Variable intersection : IntersectionShape.
Variable performed_merges : list (EdgeID * EdgeID).

Local Abbreviation view_of :=
  (Transform normalised_intersection intersection performed_merges).

(** The shapes of a view are the roads of the normalised intersection. *)
Lemma Transform_shapes view :
  view_of = Some view ->
  Permutation (map view_shape view) normalised_intersection /\
  length view = length normalised_intersection.
Proof.
  intros H. apply Transform_Some in H.
  destruct H as (position & road & base & relaxed & _ & _ & Hpolicy & ->).
  apply dead_end_policy_frame in Hpolicy. destruct Hpolicy as (_ & Hshapes & _).
  assert (Hperm : Permutation (map view_shape (Std.sort Generator.CompareByAngle relaxed))
                    normalised_intersection).
  { rewrite <- (Permutation_map view_shape (sort_perm Generator.CompareByAngle relaxed)).
    rewrite Hshapes. unfold Generator.initial_view. rewrite map_map. cbn.
    rewrite map_id. reflexivity. }
  split; [exact Hperm|].
  rewrite <- (length_map view_shape). apply Permutation_length. exact Hperm.
Qed.

(** X10: the view consists of the roads of the normalised intersection, each
    with its edge, bearing and segment length, none dropped and none added. *)
Theorem Transform_keeps_roads view :
  Generator.TransformIntersectionShapeIntoView ext this previous_node
    entering_via_edge normalised_intersection intersection performed_merges
    = Some view ->
  Permutation (map view_shape view) normalised_intersection /\
  length view = length normalised_intersection.
Proof.
  exact (Transform_shapes view).
Qed.

(** The roads of the returned view, seen from the initial decision. *)
Lemma Transform_road_cases view (r : IntersectionViewData float) :
  view_of = Some view -> In r view ->
  exists road,
    In road normalised_intersection /\ view_shape r = road /\
    (entry_allowed r = is_allowed_turn road \/
     exists uturn_edge position,
       Generator.uturn_edge_itr this previous_node intersection
         = Some (position, uturn_edge) /\
       GetTarget graph (eid road) = previous_node /\
       allow_uturn_at_dead_end uturn_edge = Some (entry_allowed r) /\
       (is_allowed_turn road = true \/
        forall road', In road' normalised_intersection ->
                      is_allowed_turn road' = false)).
Proof.
  intros H Hr. apply Transform_Some in H.
  destruct H as (position & uturn_edge & base & relaxed & Hu & _ & Hpolicy & ->).
  apply sort_In in Hr.
  assert (Hinitial : forall x, In x (initial_view normalised_intersection base) ->
            In (view_shape x) normalised_intersection /\
            entry_allowed x = is_allowed_turn (view_shape x)).
  { intros x Hx. unfold Generator.initial_view in Hx. apply in_map_iff in Hx.
    destruct Hx as (road & <- & Hroad). cbn. auto. }
  apply dead_end_policy_cases in Hpolicy.
  destruct Hpolicy as [->|(p & slot & allowed & Hp & Hprev & Hwhy & Hallow & ->)].
  - destruct (Hinitial r Hr) as [Hin Hdec]. exists (view_shape r). auto.
  - apply In_list_insert in Hr. destruct Hr as [->|Hr].
    + assert (Hslot : In slot (initial_view normalised_intersection base)).
      { apply list_elem_of_In. eapply list_elem_of_lookup_2. exact Hp. }
      destruct (Hinitial slot Hslot) as [Hin Hdec].
      exists (view_shape slot). split; [exact Hin|]. split; [reflexivity|].
      right. exists uturn_edge, position. split; [exact Hu|].
      split; [exact Hprev|]. split; [exact Hallow|].
      destruct Hwhy as [Hwhy|Hwhy].
      * left. rewrite <- Hdec. exact Hwhy.
      * right. intros road' Hroad'.
        apply (proj1 (count_if_zero _ _) Hwhy
                 (mkViewData road' (is_allowed_turn road')
                    (angleBetweenBearings ext base (bearing road')))).
        unfold Generator.initial_view. apply in_map_iff. eauto.
    + destruct (Hinitial r Hr) as [Hin Hdec]. exists (view_shape r). auto.
Qed.

(** X11: a road of the returned view that may be entered is not restricted:
    the restriction index does not forbid the turn onto it, and when an
    only-turn restriction is in force the road leads to its target. *)
Theorem allowed_roads_are_unrestricted view (r : IntersectionViewData float) :
  view_of = Some view -> In r view -> entry_allowed r = true ->
  CheckIfTurnIsRestricted (restriction_map this)
    previous_node node_at_intersection (target_of r) = false /\
  (forall only, only_valid_turn = Some only -> target_of r = only).
Proof.
  intros H Hr Hallowed.
  destruct (Transform_road_cases view r H Hr) as (road & _ & Hshape & Hcase).
  cbn beta. rewrite Hshape. apply is_restricted_false.
  destruct Hcase as [Hdec|(u & p & _ & Hprev & Hallow & _)].
  - rewrite Hallowed in Hdec. symmetry in Hdec.
    apply is_allowed_turn_true in Hdec. tauto.
  - rewrite Hallowed in Hallow. apply allow_uturn_at_dead_end_true in Hallow.
    rewrite Hprev. tauto.
Qed.

(** X12: the entry decision of every road that does not lead back to
    previous_node is the initial one: not reversed, not across a barrier,
    not restricted. *)
Theorem other_roads_keep_initial_decision view (r : IntersectionViewData float) :
  view_of = Some view -> In r view ->
  target_of r <> previous_node ->
  entry_allowed r = is_allowed_turn (view_shape r).
Proof.
  intros H Hr Hother.
  destruct (Transform_road_cases view r H Hr) as (road & _ & Hshape & Hcase).
  rewrite Hshape. destruct Hcase as [Hdec|(u & p & _ & Hprev & _)]; [exact Hdec|].
  cbn beta in Hother. rewrite Hshape in Hother. contradiction.
Qed.

(** X13: where the initial decision admits some road, the dead-end policy
    admits no further one: every road that may be entered in the returned
    view passes the initial decision. *)
Theorem passable_junction_gains_no_turn view (r : IntersectionViewData float) :
  (exists road, In road normalised_intersection /\ is_allowed_turn road = true) ->
  view_of = Some view -> In r view -> entry_allowed r = true ->
  is_allowed_turn (view_shape r) = true.
Proof.
  intros (road0 & Hin0 & Hallowed0) H Hr Hallowed.
  destruct (Transform_road_cases view r H Hr) as (road & _ & Hshape & Hcase).
  rewrite Hshape.
  destruct Hcase as [Hdec|(u & p & _ & _ & _ & [Hinit|Hnone])].
  - congruence.
  - exact Hinit.
  - rewrite (Hnone road0 Hin0) in Hallowed0. discriminate.
Qed.

(** X14: where the initial decision admits no road at all, the returned view
    admits at most one, and that one leads back to previous_node along a
    turn that is not restricted. *)
Theorem impassable_junction_allows_uturn_only view :
  (forall road, In road normalised_intersection -> is_allowed_turn road = false) ->
  view_of = Some view ->
  (Std.count_if (fun r : IntersectionViewData float => entry_allowed r) view <= 1)%nat /\
  (forall r, In r view -> entry_allowed r = true ->
     target_of r = previous_node /\ is_restricted previous_node = false).
Proof.
  intros Hnone H. split.
  - apply Transform_Some in H.
    destruct H as (position & uturn_edge & base & relaxed & _ & _ & Hpolicy & ->).
    rewrite <- (count_if_perm _ _ _ (sort_perm Generator.CompareByAngle relaxed)).
    assert (Hzero : Std.count_if (fun r : IntersectionViewData float => entry_allowed r)
                      (initial_view normalised_intersection base) = 0%nat).
    { apply count_if_zero. intros x Hx. unfold Generator.initial_view in Hx.
      apply in_map_iff in Hx. destruct Hx as (road & <- & Hroad). cbn.
      apply Hnone. exact Hroad. }
    apply dead_end_policy_cases in Hpolicy.
    destruct Hpolicy as [->|(p & slot & allowed & _ & _ & _ & _ & ->)].
    + rewrite Hzero. lia.
    + apply count_if_insert_le. exact Hzero.
  - intros r Hr Hallowed.
    destruct (Transform_road_cases view r H Hr) as (road & Hin & Hshape & Hcase).
    destruct Hcase as [Hdec|(u & p & _ & Hprev & Hallow & _)].
    + rewrite (Hnone road Hin) in Hdec. congruence.
    + cbn beta. rewrite Hshape. split; [exact Hprev|].
      rewrite Hallowed in Hallow. apply allow_uturn_at_dead_end_true in Hallow.
      tauto.
Qed.

(** X15: when the U-turn edge was merged into another road, the angles of
    the view are measured from that road, not from the U-turn edge: the road
    is the first of the normalised intersection with the edge id the merge
    names, and the angle of every road of the view is
    angleBetweenBearings(reverseBearing(bearing of that road), its own
    bearing). *)
Theorem angles_measured_from_merged_road view (position : nat)
    (uturn_edge : IntersectionShapeData float) (k : nat) (merge_entry : EdgeID * EdgeID) :
  Generator.TransformIntersectionShapeIntoView ext this previous_node
    entering_via_edge normalised_intersection intersection performed_merges
    = Some view ->
  Generator.uturn_edge_itr this previous_node intersection
    = Some (position, uturn_edge) ->
  Std.find_if (fun entry : EdgeID * EdgeID => (fst entry =? eid uturn_edge)%N)
    performed_merges = Some (k, merge_entry) ->
  exists (i : nat) (merged : IntersectionShapeData float),
    Std.find_if
      (fun road : IntersectionShapeData float => (eid road =? snd merge_entry)%N)
      normalised_intersection = Some (i, merged) /\
    forall r, In r view ->
      angle r =
        angleBetweenBearings ext (reverseBearing ext (bearing merged))
          (bearing (view_shape r)).
Proof.
  intros H Hu Hmerge. apply Transform_Some in H.
  destruct H as (position' & road & base & relaxed & Hu' & Hbase & Hpolicy & ->).
  rewrite Hu in Hu'. injection Hu' as <- <-.
  unfold Generator.uturn_bearing in Hbase. rewrite Hmerge in Hbase.
  destruct (Std.find_if _ normalised_intersection) as [[i merged]|] eqn:Hfind;
    [|discriminate].
  cbn in Hbase. injection Hbase as <-.
  exists i, merged. split; [reflexivity|].
  intros r Hr. apply sort_In in Hr.
  apply dead_end_policy_frame in Hpolicy. destruct Hpolicy as (Hangles & Hshapes & _).
  assert (Hx : In (view_shape r, angle r)
                  (map (fun r => (view_shape r, angle r)) relaxed)).
  { apply (in_map (fun r : IntersectionViewData float => (view_shape r, angle r))).
    exact Hr. }
  replace (map (fun r => (view_shape r, angle r)) relaxed)
    with (combine (map view_shape relaxed) (map angle relaxed)) in Hx
    by (clear; induction relaxed as [|a l IH]; cbn; [|rewrite IH]; reflexivity).
  rewrite Hshapes, Hangles in Hx.
  replace (combine _ _)
    with (map (fun r : IntersectionViewData float => (view_shape r, angle r))
            (initial_view normalised_intersection
               (reverseBearing ext (bearing merged)))) in Hx
    by (generalize (initial_view normalised_intersection
                      (reverseBearing ext (bearing merged)));
        intros l; induction l as [|a l IH]; cbn; [|rewrite IH]; reflexivity).
  apply in_map_iff in Hx. destruct Hx as (x & Hpair & Hxin).
  unfold Generator.initial_view in Hxin. apply in_map_iff in Hxin.
  destruct Hxin as (entry & <- & _). cbn in Hpair.
  injection Hpair as Hshape Hangle. rewrite <- Hshape, <- Hangle. reflexivity.
Qed.

End Shapes.

End TransformExtras.

(** *** GetConnectedRoads *)

Section ConnectedRoadsExtras.
Variable ext : Externals.
Variable this : IntersectionGenerator.

Local Abbreviation graph := (node_based_graph this).
Local Abbreviation GetConnectedRoads := (Generator.GetConnectedRoads ext this).
Local Abbreviation Transform_unmerged :=
  (Generator.TransformIntersectionShapeIntoView_unmerged ext this).

Lemma find_if_from_map {A B : Type} (f : A -> B) (p : B -> bool) (l : list A)
    (pos : nat) :
  Std.find_if_from p (map f l) pos =
  option_map (fun found : nat * A => (fst found, f (snd found)))
    (Std.find_if_from (fun x => p (f x)) l pos).
Proof.
  revert pos. induction l as [|a l IH]; intros pos; cbn; [reflexivity|].
  destruct (p (f a)); [reflexivity|apply IH].
Qed.

(** Without merges the U-turn slot of the view is the U-turn edge of the
    shape. *)
Lemma unmerged_uturn_slot (previous_node : NodeID) (entering_via_edge : EdgeID)
    (shape : IntersectionShape) (base : float) (position : nat)
    (uturn_edge : IntersectionShapeData float) :
  Generator.uturn_edge_itr this previous_node shape = Some (position, uturn_edge) ->
  Std.find_if
    (fun r : IntersectionViewData float =>
       Generator.connect_to_previous_node this previous_node (view_shape r))
    (Generator.initial_view ext this previous_node entering_via_edge shape base)
  = Some (position,
          mkViewData uturn_edge
            (Generator.is_allowed_turn ext this previous_node entering_via_edge uturn_edge)
            (angleBetweenBearings ext base (bearing uturn_edge))).
Proof.
  unfold Generator.uturn_edge_itr, Std.find_if, Generator.initial_view.
  intros H. rewrite find_if_from_map.
  match goal with
  | |- option_map _ (Std.find_if_from ?p shape 0) = _ =>
      change p with (Generator.connect_to_previous_node this previous_node)
  end.
  rewrite H. reflexivity.
Qed.

(** Without merges a road whose edge is reversed may never be entered. *)
Lemma unmerged_reversed_not_allowed (previous_node : NodeID)
    (entering_via_edge : EdgeID) (shape : IntersectionShape)
    (view : IntersectionView) (r : IntersectionViewData float) :
  Transform_unmerged previous_node entering_via_edge shape = Some view ->
  In r view ->
  reversed (GetEdgeData graph (eid (view_shape r))) = true ->
  entry_allowed r = false.
Proof.
  intros H Hr Hreversed.
  unfold Generator.TransformIntersectionShapeIntoView_unmerged in H.
  apply Transform_Some in H.
  destruct H as (position & uturn_edge & base & relaxed & Hu & _ & Hpolicy & ->).
  apply sort_In in Hr.
  assert (Hinitial : forall x,
            In x (Generator.initial_view ext this previous_node entering_via_edge
                    shape base) ->
            reversed (GetEdgeData graph (eid (view_shape x))) = true ->
            entry_allowed x = false).
  { intros x Hx Hrev. unfold Generator.initial_view in Hx.
    apply in_map_iff in Hx. destruct Hx as (road & <- & _). cbn in *.
    unfold Generator.is_allowed_turn. rewrite Hrev. reflexivity. }
  unfold Generator.dead_end_policy in Hpolicy.
  rewrite (unmerged_uturn_slot _ _ _ _ _ _ Hu) in Hpolicy.
  destruct (_ || _) in Hpolicy.
  - destruct (Generator.allow_uturn_at_dead_end _ _ _ _ _) as [allowed|] eqn:Hallow;
      [|discriminate].
    cbn in Hpolicy. injection Hpolicy as <-.
    apply In_list_insert in Hr. destruct Hr as [->|Hr]; [|auto].
    cbn in *. unfold Generator.allow_uturn_at_dead_end in Hallow.
    rewrite Hreversed in Hallow. congruence.
  - injection Hpolicy as <-. auto.
Qed.

(** X16: in a view of GetConnectedRoads a road whose edge is reversed, an
    incoming one-way, may never be entered, the U-turn included: the
    dead-end policy does not open it either. *)
Theorem reversed_roads_are_never_allowed (from_node : NodeID) (via_eid : EdgeID)
    (low : bool) (view : IntersectionView) (r : IntersectionViewData float) :
  GetConnectedRoads from_node via_eid low = Some view ->
  In r view ->
  reversed (GetEdgeData graph (eid (view_shape r))) = true ->
  entry_allowed r = false.
Proof.
  intros H. unfold Generator.GetConnectedRoads in H.
  destruct (Generator.via_eid_is_valid _ _ _); [|discriminate].
  destruct (Generator.ComputeIntersectionShape _ _ _ _ _) as [shape|]; [|discriminate].
  cbn in H. exact (unmerged_reversed_not_allowed _ _ _ _ r H).
Qed.

(** X17: without merges the dead-end policy grants nothing: every road that
    may be entered in a view of GetConnectedRoads passes the initial decision
    (not reversed, not across a barrier, not restricted); the policy can only
    take the U-turn away. *)
Theorem GetConnectedRoads_policy_only_revokes (from_node : NodeID) (via_eid : EdgeID)
    (low : bool) (view : IntersectionView) (r : IntersectionViewData float) :
  GetConnectedRoads from_node via_eid low = Some view ->
  In r view -> entry_allowed r = true ->
  Generator.is_allowed_turn ext this from_node via_eid (view_shape r) = true.
Proof.
  unfold Generator.GetConnectedRoads.
  destruct (Generator.via_eid_is_valid _ _ _); [|discriminate].
  destruct (Generator.ComputeIntersectionShape _ _ _ _ _) as [shape|]; [|discriminate].
  cbn [mbind option_bind].
  unfold Generator.TransformIntersectionShapeIntoView_unmerged.
  intros H Hr Hallowed. apply Transform_Some in H.
  destruct H as (position & uturn_edge & base & relaxed & Hu & _ & Hpolicy & ->).
  apply sort_In in Hr.
  assert (Hinitial : forall x,
            In x (Generator.initial_view ext this from_node via_eid shape base) ->
            entry_allowed x = true ->
            Generator.is_allowed_turn ext this from_node via_eid (view_shape x) = true).
  { intros x Hx. unfold Generator.initial_view in Hx.
    apply in_map_iff in Hx. destruct Hx as (road & <- & _). cbn. auto. }
  unfold Generator.dead_end_policy in Hpolicy.
  rewrite (unmerged_uturn_slot _ _ _ _ _ _ Hu) in Hpolicy.
  destruct (_ || _) in Hpolicy.
  - destruct (Generator.allow_uturn_at_dead_end _ _ _ _ _) as [allowed|] eqn:Hallow;
      [|discriminate].
    cbn in Hpolicy. injection Hpolicy as <-.
    apply In_list_insert in Hr. destruct Hr as [->|Hr]; [|auto].
    cbn in Hallowed |- *. subst allowed.
    unfold Generator.allow_uturn_at_dead_end in Hallow.
    apply find_if_In in Hu. destruct Hu as (_ & Hprev).
    unfold Generator.connect_to_previous_node in Hprev.
    unfold Generator.is_allowed_turn. rewrite Hprev, orb_true_r.
    apply N.eqb_eq in Hprev. rewrite Hprev.
    destruct (reversed _); [discriminate|].
    destruct (Generator.is_restricted _ _ _ _ _); [discriminate|]. reflexivity.
  - injection Hpolicy as <-. auto.
Qed.

(** X18: the view of GetConnectedRoads has exactly one road for every edge
    adjacent to the node the entering edge leads to. *)
Theorem GetConnectedRoads_edges (from_node : NodeID) (via_eid : EdgeID) (low : bool)
    (view : IntersectionView) :
  GetConnectedRoads from_node via_eid low = Some view ->
  Permutation (map (fun r => eid (view_shape r)) view)
    (GetAdjacentEdgeRange graph (GetTarget graph via_eid)) /\
  length view = length (GetAdjacentEdgeRange graph (GetTarget graph via_eid)).
Proof.
  unfold Generator.GetConnectedRoads.
  destruct (Generator.via_eid_is_valid _ _ _); [|discriminate].
  destruct (Generator.ComputeIntersectionShape _ _ _ _ _) as [shape|] eqn:Hshape;
    [|discriminate].
  cbn. intros H.
  apply ComputeIntersectionShape_eids in Hshape. destruct Hshape as [Hedges Hlen].
  apply Transform_shapes in H. destruct H as [Hroads Hlen'].
  split; [|congruence].
  rewrite <- Hedges, <- (map_map view_shape eid).
  apply Permutation_map. exact Hroads.
Qed.

(** The closing assertion holds of a sorted view whose angles are at least
    0 and one of which is below epsilon. *)
Lemma sorted_view_passes_check (relaxed : IntersectionView)
    (uturn_road : IntersectionViewData float) :
  (forall r, In r relaxed -> PrimFloat.leb 0 (angle r) = true) ->
  In uturn_road relaxed ->
  PrimFloat.ltb (angle uturn_road) Double.epsilon = true ->
  Generator.checked_view (Std.sort Generator.CompareByAngle relaxed)
  = Some (Std.sort Generator.CompareByAngle relaxed).
Proof.
  intros Hnonneg Hin Hsmall.
  assert (Hsorted :
    StronglySorted (fun a b => PrimFloat.leb (angle a) (angle b) = true)
      (Std.sort Generator.CompareByAngle relaxed)).
  { apply (sort_sorted angle Generator.CompareByAngle); [reflexivity|].
    intros r Hr. apply (float_leb_number 0). apply Hnonneg. exact Hr. }
  assert (Hin' : In uturn_road (Std.sort Generator.CompareByAngle relaxed))
    by (apply sort_In; exact Hin).
  destruct (Std.sort Generator.CompareByAngle relaxed) as [|first rest] eqn:Hsort;
    [destruct Hin'|].
  assert (Hfirst : In first relaxed).
  { apply (sort_In Generator.CompareByAngle). rewrite Hsort. left. reflexivity. }
  unfold Generator.checked_view. rewrite (Hnonneg first Hfirst). cbn [andb].
  replace (PrimFloat.ltb (angle first) Double.epsilon) with true; [reflexivity|].
  symmetry. destruct Hin' as [<-|Hrest]; [exact Hsmall|].
  apply StronglySorted_inv in Hsorted. destruct Hsorted as [_ Hall].
  rewrite List.Forall_forall in Hall.
  exact (float_leb_ltb_trans _ _ _ (Hall uturn_road Hrest) Hsmall).
Qed.

(** X19: GetConnectedRoads returns a view whenever none of its assertions
    can fail: the entering edge lies in the edge range of from_node, the
    node it leads to has a coordinate, none of that node's adjacent edges is
    the sentinel, one of them leads back to from_node, each of them has a
    reverse edge, and, for the closing assertion, the angles the bearing
    helpers give from the reversed bearing of the U-turn road are at least 0
    and the angle of the U-turn road itself is below epsilon. *)
Theorem GetConnectedRoads_defined (from_node : NodeID) (via_eid : EdgeID) (low : bool) :
  let node := GetTarget graph via_eid in
  Generator.via_eid_is_valid this from_node via_eid = true ->
  (N.to_nat node < length (node_info_list this))%nat ->
  (forall e, In e (GetAdjacentEdgeRange graph node) ->
     e <> SPECIAL_EDGEID ext /\
     FindEdge graph (GetTarget graph e) node <> SPECIAL_EDGEID ext) ->
  (exists e, In e (GetAdjacentEdgeRange graph node) /\ GetTarget graph e = from_node) ->
  (forall (shape : IntersectionShape) (position : nat)
          (uturn_edge : IntersectionShapeData float),
     Generator.ComputeIntersectionShape ext this node None low = Some shape ->
     Generator.uturn_edge_itr this from_node shape = Some (position, uturn_edge) ->
     let uturn_bearing := reverseBearing ext (bearing uturn_edge) in
     (forall road, In road shape ->
        PrimFloat.leb 0 (angleBetweenBearings ext uturn_bearing (bearing road)) = true) /\
     PrimFloat.ltb (angleBetweenBearings ext uturn_bearing (bearing uturn_edge))
       Double.epsilon = true) ->
  exists view, GetConnectedRoads from_node via_eid low = Some view.
Proof.
  intros node Hvia Hcoordinate Hedges (back & Hback & Htarget) Hangles.
  unfold Generator.GetConnectedRoads. rewrite Hvia. fold node.
  destruct (proj2 (ComputeIntersectionShape_is_Some ext this node None low))
    as [shape Hshape].
  { split; [exact Hcoordinate|]. intros e He. apply Hedges. exact He. }
  rewrite Hshape. cbn [mbind option_bind].
  unfold Generator.TransformIntersectionShapeIntoView_unmerged,
    Generator.TransformIntersectionShapeIntoView.
  assert (Hroad : exists road, In road shape /\
            Generator.connect_to_previous_node this from_node road = true).
  { destruct (ComputeIntersectionShape_eids ext this _ _ _ _ Hshape) as [Hperm _].
    assert (Hin : In back (map eid shape)).
    { eapply Permutation_in; [symmetry; exact Hperm|exact Hback]. }
    apply in_map_iff in Hin. destruct Hin as (road & Heid & Hin).
    exists road. split; [exact Hin|].
    unfold Generator.connect_to_previous_node. rewrite Heid. apply N.eqb_eq.
    exact Htarget. }
  destruct Hroad as (road & Hin & Hconnect).
  destruct (find_if_is_Some _ _ _ Hin Hconnect) as (position & uturn_edge & Hfind).
  destruct (Hangles shape position uturn_edge Hshape Hfind) as [Hnonneg Hsmall].
  unfold Generator.uturn_edge_itr. rewrite Hfind. cbn [mbind option_bind].
  unfold Generator.uturn_bearing. cbn [Std.find_if Std.find_if_from].
  change (Std.find_if_from (Generator.connect_to_previous_node this from_node) shape 0)
    with (Std.find_if (Generator.connect_to_previous_node this from_node) shape).
  rewrite Hfind. cbn [mbind option_bind].
  set (base := reverseBearing ext (bearing uturn_edge)) in *.
  destruct (dead_end_policy_total ext this from_node via_eid uturn_edge
              (Generator.initial_view ext this from_node via_eid shape base))
    as [relaxed Hrelaxed].
  { intros e He. apply Hedges. exact He. }
  rewrite Hrelaxed. cbn [mbind option_bind].
  apply dead_end_policy_frame in Hrelaxed. destruct Hrelaxed as (Hsame & _ & _).
  assert (Hangle_of : forall a, In a (map angle relaxed) <->
            exists entry, In entry shape /\
                          a = angleBetweenBearings ext base (bearing entry)).
  { intros a. rewrite Hsame. unfold Generator.initial_view. rewrite map_map.
    rewrite in_map_iff. cbn [angle]. split.
    - intros (entry & <- & Hentry). eauto.
    - intros (entry & Hentry & ->). eauto. }
  assert (Huturn : In (angleBetweenBearings ext base (bearing uturn_edge))
                     (map angle relaxed)).
  { apply Hangle_of. exists uturn_edge. split; [|reflexivity].
    apply find_if_In in Hfind. tauto. }
  apply in_map_iff in Huturn. destruct Huturn as (uturn_road & Hangle & Huturn).
  eexists. apply (sorted_view_passes_check relaxed uturn_road).
  - intros r Hr. destruct (proj1 (Hangle_of (angle r))) as (entry & Hentry & ->).
    { apply in_map. exact Hr. }
    apply Hnonneg. exact Hentry.
  - exact Huturn.
  - rewrite Hangle. exact Hsmall.
Qed.

(** *** GetActualNextIntersection *)

Local Abbreviation skip_step := (Generator.skip_step ext this).
Local Abbreviation skip_trivial_nodes := (Generator.skip_trivial_nodes ext this).
Local Abbreviation GetActualNextIntersection :=
  (Generator.GetActualNextIntersection ext this).

(** X20: when the entering edge leads to a node whose out-degree is not 2,
    nothing is skipped: the result is the view of GetConnectedRoads at the
    given node and edge, which are also the resolved ones. *)
Theorem GetActualNextIntersection_at_junction (fuel : nat) (starting_node : NodeID)
    (via_edge : EdgeID) :
  GetOutDegree graph (GetTarget graph via_edge) <> 2%N ->
  GetActualNextIntersection (S fuel) starting_node via_edge =
  match GetConnectedRoads starting_node via_edge Generator.USE_HIGH_PRECISION_MODE with
  | Some view => Generator.Returned (view, starting_node, via_edge)
  | None => Generator.AssertionFailed
  end.
Proof.
  intros Hdegree. apply N.eqb_neq in Hdegree.
  unfold Generator.GetActualNextIntersection.
  cbn [Generator.skip_trivial_nodes]. unfold Generator.skip_step, Generator.skip_guard.
  cbn [Generator.query_edge Generator.query_node Generator.visited_nodes].
  rewrite Hdegree, andb_false_r. reflexivity.
Qed.

Local Abbreviation resolved := (Generator.resolved this).

Lemma skip_step_resolved (starting_node : NodeID) (via_edge : EdgeID)
    (w : Generator.Walk) :
  resolved starting_node via_edge (Generator.query_node w) (Generator.query_edge w) ->
  match skip_step starting_node w with
  | Generator.Continue w' | Generator.Leave w' =>
      resolved starting_node via_edge
        (Generator.query_node w') (Generator.query_edge w')
  | Generator.Failed => True
  end.
Proof.
  intros Hw. unfold Generator.skip_step, Generator.skip_guard.
  destruct (bool_decide _); cbn [andb]; [|exact Hw].
  destruct (N.eqb_spec (GetOutDegree graph (GetTarget graph (Generator.query_edge w))) 2)
    as [Hdegree|]; [|exact Hw].
  unfold Generator.get_next_edge.
  apply N.eqb_eq in Hdegree. rewrite Hdegree. apply N.eqb_eq in Hdegree.
  destruct (negb _); cbn [orb]; [exact Hw|].
  match goal with
  | |- context [(GetTarget graph ?next =? starting_node)%N] =>
      destruct (N.eqb_spec (GetTarget graph next) starting_node) as [|Hback];
      [exact Hw|]
  end.
  right. cbn [Generator.query_node Generator.query_edge].
  split; [exact Hdegree|]. split; [|exact Hback].
  destruct (N.eqb _ (Generator.query_node w)); auto.
Qed.

(** X21: whatever GetActualNextIntersection returns is the view of
    GetConnectedRoads at the resolved node and edge; these are the given
    ones, or a node of out-degree 2 together with one of its first two
    edges, an edge that does not lead back to starting_node. *)
Theorem GetActualNextIntersection_resolved (fuel : nat) (starting_node : NodeID)
    (via_edge : EdgeID) (view : IntersectionView) (from_node : NodeID)
    (via_eid : EdgeID) :
  GetActualNextIntersection fuel starting_node via_edge
    = Generator.Returned (view, from_node, via_eid) ->
  GetConnectedRoads from_node via_eid Generator.USE_HIGH_PRECISION_MODE = Some view /\
  resolved starting_node via_edge from_node via_eid.
Proof.
  unfold Generator.GetActualNextIntersection.
  assert (Hloop : forall fuel w w',
            resolved starting_node via_edge
              (Generator.query_node w) (Generator.query_edge w) ->
            skip_trivial_nodes fuel starting_node w = Generator.Returned w' ->
            resolved starting_node via_edge
              (Generator.query_node w') (Generator.query_edge w')).
  { clear. intros fuel. induction fuel as [|fuel IH]; intros w w' Hw; [discriminate|].
    cbn [Generator.skip_trivial_nodes].
    pose proof (skip_step_resolved starting_node via_edge w Hw) as Hstep.
    destruct (skip_step starting_node w) as [w1|w1|]; try discriminate.
    - apply IH. exact Hstep.
    - intros [= <-]. exact Hstep. }
  destruct (Generator.skip_trivial_nodes _ _ _ _ _) as [w| |] eqn:Hrun; try discriminate.
  destruct (Generator.GetConnectedRoads _ _ _ _ _) as [v|] eqn:Hv; [|discriminate].
  intros [= <- <- <-]. split; [exact Hv|].
  apply (Hloop fuel _ w) in Hrun; [exact Hrun|].
  left. split; reflexivity.
Qed.

End ConnectedRoadsExtras.

(** *** Barriers and missing U-turn roads *)

Section BarrierExtras.
Variable ext : Externals.
Variable this : IntersectionGenerator.

Local Abbreviation graph := (node_based_graph this).
Local Abbreviation GetConnectedRoads := (Generator.GetConnectedRoads ext this).

(** X22: at a barrier node the dead-end policy changes nothing in a view of
    GetConnectedRoads: every road has the entry decision of the initial
    decision, so the U-turn may be entered iff its edge is not reversed and
    the turn is not restricted, and no other road may be entered. *)
Theorem GetConnectedRoads_at_barrier (from_node : NodeID) (via_eid : EdgeID)
    (low : bool) (view : IntersectionView) (r : IntersectionViewData float) :
  GetTarget graph via_eid ∈ barrier_nodes this ->
  GetConnectedRoads from_node via_eid low = Some view ->
  In r view ->
  entry_allowed r =
    Generator.is_allowed_turn ext this from_node via_eid (view_shape r) /\
  entry_allowed r =
    negb (reversed (GetEdgeData graph (eid (view_shape r))))
    && (GetTarget graph (eid (view_shape r)) =? from_node)%N
    && negb (Generator.is_restricted ext this from_node via_eid
               (GetTarget graph (eid (view_shape r)))).
Proof.
  intros Hbarrier.
  assert (Hb : Generator.is_barrier_node this via_eid = true).
  { unfold Generator.is_barrier_node. apply bool_decide_eq_true. exact Hbarrier. }
  unfold Generator.GetConnectedRoads.
  destruct (Generator.via_eid_is_valid _ _ _); [|discriminate].
  destruct (Generator.ComputeIntersectionShape _ _ _ _ _) as [shape|]; [|discriminate].
  cbn [mbind option_bind].
  unfold Generator.TransformIntersectionShapeIntoView_unmerged.
  intros H Hr.
  assert (Hdecision :
    entry_allowed r =
      Generator.is_allowed_turn ext this from_node via_eid (view_shape r)).
  { apply Transform_Some in H.
    destruct H as (position & uturn_edge & base & relaxed & Hu & _ & Hpolicy & ->).
    apply sort_In in Hr.
    assert (Hinitial : forall x,
              In x (Generator.initial_view ext this from_node via_eid shape base) ->
              entry_allowed x =
                Generator.is_allowed_turn ext this from_node via_eid (view_shape x)).
    { intros x Hx. unfold Generator.initial_view in Hx.
      apply in_map_iff in Hx. destruct Hx as (road & <- & _). reflexivity. }
    unfold Generator.dead_end_policy in Hpolicy.
    rewrite (unmerged_uturn_slot _ _ _ _ _ _ _ _ Hu) in Hpolicy.
    rewrite Hb in Hpolicy. cbn [negb] in Hpolicy.
    rewrite andb_false_r in Hpolicy. cbn [andb orb] in Hpolicy.
    destruct (Nat.eqb _ 0) eqn:Hcount in Hpolicy; [|injection Hpolicy as <-; auto].
    destruct (Generator.allow_uturn_at_dead_end _ _ _ _ _) as [allowed|] eqn:Hallow;
      [|discriminate].
    cbn in Hpolicy. injection Hpolicy as <-.
    apply In_list_insert in Hr. destruct Hr as [->|Hr]; [|auto].
    cbn [entry_allowed view_shape Generator.set_entry_allowed].
    apply Nat.eqb_eq in Hcount.
    assert (Hslot := proj1 (count_if_zero _ _) Hcount
              (mkViewData uturn_edge
                 (Generator.is_allowed_turn ext this from_node via_eid uturn_edge)
                 (angleBetweenBearings ext base (bearing uturn_edge)))).
    apply find_if_In in Hu. destruct Hu as (Hin & Hprev).
    assert (Hslot' := Hslot ltac:(unfold Generator.initial_view;
                                   apply in_map_iff; eauto)).
    clear Hslot. rename Hslot' into Hslot.
    cbn [entry_allowed] in Hslot. rewrite Hslot.
    unfold Generator.connect_to_previous_node in Hprev.
    unfold Generator.is_allowed_turn in Hslot. rewrite Hprev, orb_true_r in Hslot.
    apply N.eqb_eq in Hprev. rewrite Hprev in Hslot.
    unfold Generator.allow_uturn_at_dead_end in Hallow.
    destruct (reversed _); [congruence|].
    destruct (Generator.is_restricted _ _ _ _ _); [congruence|].
    discriminate Hslot. }
  split; [exact Hdecision|].
  rewrite Hdecision. unfold Generator.is_allowed_turn. rewrite Hb. reflexivity.
Qed.

(** X23: TransformIntersectionShapeIntoView returns no view when it cannot
    tell the U-turn bearing: when the merge recorded for the U-turn edge
    names a road that is not in the normalised intersection, or when no
    merge is recorded for it and no road of the normalised intersection
    leads back to previous_node. *)
Theorem Transform_needs_uturn_bearing (previous_node : NodeID)
    (entering_via_edge : EdgeID)
    (normalised_intersection intersection : IntersectionShape)
    (performed_merges : list (EdgeID * EdgeID)) (position : nat)
    (uturn_edge : IntersectionShapeData float) :
  Generator.uturn_edge_itr this previous_node intersection
    = Some (position, uturn_edge) ->
  match Std.find_if (fun entry : EdgeID * EdgeID => (fst entry =? eid uturn_edge)%N)
          performed_merges with
  | Some (_, merge_entry) =>
      forall road, In road normalised_intersection -> eid road <> snd merge_entry
  | None =>
      forall road, In road normalised_intersection ->
        GetTarget graph (eid road) <> previous_node
  end ->
  Generator.TransformIntersectionShapeIntoView ext this previous_node
    entering_via_edge normalised_intersection intersection performed_merges = None.
Proof.
  intros Hu Hmissing.
  unfold Generator.TransformIntersectionShapeIntoView. rewrite Hu.
  cbn [mbind option_bind]. unfold Generator.uturn_bearing.
  destruct (Std.find_if _ performed_merges) as [[k merge_entry]|].
  - replace (Std.find_if _ normalised_intersection)
      with (@None (nat * IntersectionShapeData float)); [reflexivity|].
    symmetry. apply find_if_None. intros road Hroad.
    apply N.eqb_neq. apply Hmissing. exact Hroad.
  - replace (Std.find_if _ normalised_intersection)
      with (@None (nat * IntersectionShapeData float)); [reflexivity|].
    symmetry. apply find_if_None. intros road Hroad.
    apply N.eqb_neq. apply Hmissing. exact Hroad.
Qed.

End BarrierExtras.

(** ** The further properties on the example networks *)

Section MoreScenarios.
Import Examples.

Local Abbreviation plain_cross := (cross no_restrictions ∅).

Lemma valid_leading_road_not_mirrored_witness :
  IntersectionLookup.valid valid_intersection = true /\
  exists (first : ConnectedRoad float) (rest : list (ConnectedRoad float)),
    valid_intersection = first :: rest /\
    PrimFloat.ltb (angle (road_view first)) Double.epsilon = true /\
    (PrimFloat.leb 0 (angle (road_view first)) = true ->
     Intersection.mirror first = first).
Proof.
  split; [reflexivity|].
  apply valid_leading_road_not_mirrored. reflexivity.
Defined.

Lemma cross_ComputeIntersectionShape :
  Generator.ComputeIntersectionShape externals plain_cross 0%N None false
  = Some cross_shape_unaligned.
Proof. vm_compute. reflexivity. Qed.

Lemma cross_Transform :
  Generator.TransformIntersectionShapeIntoView externals plain_cross 4%N 7%N
    cross_shape cross_shape [] = Some cross_view.
Proof. vm_compute. reflexivity. Qed.

Lemma ComputeIntersectionShape_edges_witness :
  Generator.ComputeIntersectionShape externals plain_cross 0%N None false
    = Some cross_shape_unaligned /\
  Permutation (map eid cross_shape_unaligned)
    (GetAdjacentEdgeRange (node_based_graph plain_cross) 0%N) /\
  length cross_shape_unaligned
    = length (GetAdjacentEdgeRange (node_based_graph plain_cross) 0%N).
Proof.
  split; [exact cross_ComputeIntersectionShape|].
  exact (ComputeIntersectionShape_edges externals plain_cross 0%N None false
           cross_shape_unaligned cross_ComputeIntersectionShape).
Defined.

Lemma ComputeIntersectionShape_low_degree_witness :
  (GetOutDegree (node_based_graph chain) 1%N <= 2)%N /\
  Generator.ComputeIntersectionShape externals chain 1%N None false =
  Generator.ComputeIntersectionShape externals chain 1%N None true.
Proof.
  assert (H : (GetOutDegree (node_based_graph chain) 1%N <= 2)%N)
    by (vm_compute; discriminate).
  split; [exact H|].
  exact (ComputeIntersectionShape_low_degree externals chain 1%N None false H).
Defined.

Lemma cross_has_no_edge_to_9 (e : EdgeID) :
  In e (GetAdjacentEdgeRange (node_based_graph plain_cross) 0%N) ->
  GetTarget (node_based_graph plain_cross) e <> 9%N.
Proof.
  intros He. vm_compute in He.
  destruct He as [<-|[<-|[<-|[<-|[]]]]]; vm_compute; discriminate.
Qed.

Lemma ComputeIntersectionShape_base_not_adjacent_witness :
  (forall e, In e (GetAdjacentEdgeRange (node_based_graph plain_cross) 0%N) ->
     GetTarget (node_based_graph plain_cross) e <> 9%N) /\
  Generator.ComputeIntersectionShape externals plain_cross 0%N (Some 9%N) false =
  Generator.ComputeIntersectionShape externals plain_cross 0%N None false.
Proof.
  split; [exact cross_has_no_edge_to_9|].
  exact (ComputeIntersectionShape_base_not_adjacent externals plain_cross 0%N 9%N
           false cross_has_no_edge_to_9).
Defined.

Lemma Transform_keeps_roads_witness :
  Generator.TransformIntersectionShapeIntoView externals plain_cross 4%N 7%N
    cross_shape cross_shape [] = Some cross_view /\
  Permutation (map view_shape cross_view) cross_shape /\
  length cross_view = length cross_shape.
Proof.
  split; [exact cross_Transform|].
  exact (Transform_keeps_roads externals plain_cross 4%N 7%N cross_shape cross_shape []
           cross_view cross_Transform).
Defined.

(** The road to the west in the view of the cross. *)
Local Abbreviation west_road :=
  (mkViewData (mkShapeData 1%N 270%float 1000%float) true 90%float).

Lemma allowed_roads_are_unrestricted_witness :
  Generator.TransformIntersectionShapeIntoView externals plain_cross 4%N 7%N
    cross_shape cross_shape [] = Some cross_view /\
  In west_road cross_view /\
  entry_allowed west_road = true /\
  CheckIfTurnIsRestricted (restriction_map plain_cross) 4%N
    (Generator.node_at_intersection plain_cross 7%N)
    (GetTarget (node_based_graph plain_cross) (eid (view_shape west_road))) = false.
Proof.
  assert (Hin : In west_road cross_view) by (cbn; tauto).
  split; [exact cross_Transform|]. split; [exact Hin|]. split; [reflexivity|].
  exact (proj1 (allowed_roads_are_unrestricted externals plain_cross 4%N 7%N
                  cross_shape cross_shape [] cross_view west_road
                  cross_Transform Hin eq_refl)).
Defined.

Lemma other_roads_keep_initial_decision_witness :
  Generator.TransformIntersectionShapeIntoView externals plain_cross 4%N 7%N
    cross_shape cross_shape [] = Some cross_view /\
  In west_road cross_view /\
  GetTarget (node_based_graph plain_cross) (eid (view_shape west_road)) <> 4%N /\
  entry_allowed west_road =
    Generator.is_allowed_turn externals plain_cross 4%N 7%N (view_shape west_road).
Proof.
  assert (Hin : In west_road cross_view) by (cbn; tauto).
  assert (Hother : GetTarget (node_based_graph plain_cross)
                     (eid (view_shape west_road)) <> 4%N)
    by (vm_compute; discriminate).
  split; [exact cross_Transform|]. split; [exact Hin|]. split; [exact Hother|].
  exact (other_roads_keep_initial_decision externals plain_cross 4%N 7%N
           cross_shape cross_shape [] cross_view west_road cross_Transform Hin Hother).
Defined.

Lemma passable_junction_gains_no_turn_witness :
  (exists road, In road cross_shape /\
     Generator.is_allowed_turn externals plain_cross 4%N 7%N road = true) /\
  Generator.TransformIntersectionShapeIntoView externals plain_cross 4%N 7%N
    cross_shape cross_shape [] = Some cross_view /\
  In west_road cross_view /\
  Generator.is_allowed_turn externals plain_cross 4%N 7%N (view_shape west_road) = true.
Proof.
  assert (Hin : In west_road cross_view) by (cbn; tauto).
  assert (Hsome : exists road, In road cross_shape /\
            Generator.is_allowed_turn externals plain_cross 4%N 7%N road = true).
  { exists (mkShapeData 1%N 270%float 1000%float). split; [cbn; tauto|reflexivity]. }
  split; [exact Hsome|]. split; [exact cross_Transform|]. split; [exact Hin|].
  exact (passable_junction_gains_no_turn externals plain_cross 4%N 7%N
           cross_shape cross_shape [] cross_view west_road Hsome cross_Transform
           Hin eq_refl).
Defined.

Lemma all_restricted_admits_nothing (road : IntersectionShapeData float) :
  In road cross_shape ->
  Generator.is_allowed_turn externals (cross all_restricted ∅) 4%N 7%N road = false.
Proof.
  intros [<-|[<-|[<-|[<-|[]]]]]; vm_compute; reflexivity.
Qed.

Lemma impassable_junction_allows_uturn_only_witness :
  exists view,
    Generator.TransformIntersectionShapeIntoView externals (cross all_restricted ∅)
      4%N 7%N cross_shape cross_shape [] = Some view /\
    (Std.count_if (fun r : IntersectionViewData float => entry_allowed r) view <= 1)%nat.
Proof.
  eexists. split; [vm_compute; reflexivity|].
  refine (proj1 (impassable_junction_allows_uturn_only externals
                   (cross all_restricted ∅) 4%N 7%N cross_shape cross_shape [] _
                   all_restricted_admits_nothing _)).
  vm_compute. reflexivity.
Defined.

Lemma angles_measured_from_merged_road_witness :
  Generator.TransformIntersectionShapeIntoView externals parallel 1%N 3%N
    merged_shape parallel_shape [(1%N, 0%N)] = Some merged_view /\
  Generator.uturn_edge_itr parallel 1%N parallel_shape
    = Some (0%nat, mkShapeData 1%N 180%float 1000%float) /\
  exists (i : nat) (merged : IntersectionShapeData float),
    Std.find_if (fun road : IntersectionShapeData float => (eid road =? 0)%N)
      merged_shape = Some (i, merged) /\
    forall r, In r merged_view ->
      angle r =
        angleBetweenBearings externals (reverseBearing externals (bearing merged))
          (bearing (view_shape r)).
Proof.
  assert (Hview :
    Generator.TransformIntersectionShapeIntoView externals parallel 1%N 3%N
      merged_shape parallel_shape [(1%N, 0%N)] = Some merged_view)
    by (vm_compute; reflexivity).
  assert (Hu : Generator.uturn_edge_itr parallel 1%N parallel_shape
               = Some (0%nat, mkShapeData 1%N 180%float 1000%float))
    by (vm_compute; reflexivity).
  split; [exact Hview|]. split; [exact Hu|].
  refine (angles_measured_from_merged_road externals parallel 1%N 3%N
            merged_shape parallel_shape [(1%N, 0%N)] merged_view 0%nat
            (mkShapeData 1%N 180%float 1000%float) 0%nat (1%N, 0%N) Hview Hu _).
  vm_compute. reflexivity.
Defined.

Lemma GetConnectedRoads_edges_witness :
  Generator.GetConnectedRoads externals plain_cross 4%N 7%N false = Some cross_view /\
  Permutation (map (fun r => eid (view_shape r)) cross_view)
    (GetAdjacentEdgeRange (node_based_graph plain_cross)
       (GetTarget (node_based_graph plain_cross) 7%N)) /\
  length cross_view =
    length (GetAdjacentEdgeRange (node_based_graph plain_cross)
              (GetTarget (node_based_graph plain_cross) 7%N)).
Proof.
  split; [exact cross_GetConnectedRoads|].
  exact (GetConnectedRoads_edges externals plain_cross 4%N 7%N false cross_view
           cross_GetConnectedRoads).
Defined.

Lemma GetConnectedRoads_policy_only_revokes_witness :
  Generator.GetConnectedRoads externals plain_cross 4%N 7%N false = Some cross_view /\
  In west_road cross_view /\
  Generator.is_allowed_turn externals plain_cross 4%N 7%N (view_shape west_road) = true.
Proof.
  assert (Hin : In west_road cross_view) by (cbn; tauto).
  split; [exact cross_GetConnectedRoads|]. split; [exact Hin|].
  exact (GetConnectedRoads_policy_only_revokes externals plain_cross 4%N 7%N false
           cross_view west_road cross_GetConnectedRoads Hin eq_refl).
Defined.

Lemma cross_edges_are_sound (e : EdgeID) :
  In e (GetAdjacentEdgeRange (node_based_graph plain_cross)
          (GetTarget (node_based_graph plain_cross) 7%N)) ->
  e <> SPECIAL_EDGEID externals /\
  FindEdge (node_based_graph plain_cross)
    (GetTarget (node_based_graph plain_cross) e)
    (GetTarget (node_based_graph plain_cross) 7%N) <> SPECIAL_EDGEID externals.
Proof.
  intros He. vm_compute in He.
  destruct He as [<-|[<-|[<-|[<-|[]]]]]; split; vm_compute; discriminate.
Qed.

Lemma GetConnectedRoads_defined_witness :
  Generator.via_eid_is_valid plain_cross 4%N 7%N = true /\
  exists view, Generator.GetConnectedRoads externals plain_cross 4%N 7%N false = Some view.
Proof.
  split; [reflexivity|].
  apply (GetConnectedRoads_defined externals plain_cross 4%N 7%N false).
  - reflexivity.
  - vm_compute. lia.
  - exact cross_edges_are_sound.
  - exists 3%N. split; [vm_compute; tauto|reflexivity].
  - intros shape position uturn_edge Hshape.
    change (GetTarget (node_based_graph plain_cross) 7%N) with 0%N in Hshape.
    rewrite cross_ComputeIntersectionShape in Hshape. apply (inj Some) in Hshape.
    subst shape. intros Hfind. vm_compute in Hfind.
    apply (inj Some) in Hfind. apply pair_equal_spec in Hfind.
    destruct Hfind as [_ <-]. split.
    + intros road [<-|[<-|[<-|[<-|[]]]]]; vm_compute; reflexivity.
    + vm_compute. reflexivity.
Defined.

Lemma GetActualNextIntersection_at_junction_witness :
  GetOutDegree (node_based_graph plain_cross)
    (GetTarget (node_based_graph plain_cross) 7%N) <> 2%N /\
  Generator.GetActualNextIntersection externals plain_cross 1 4%N 7%N
  = Generator.Returned (cross_view, 4%N, 7%N).
Proof.
  assert (H : GetOutDegree (node_based_graph plain_cross)
                (GetTarget (node_based_graph plain_cross) 7%N) <> 2%N)
    by (vm_compute; discriminate).
  split; [exact H|].
  rewrite (GetActualNextIntersection_at_junction externals plain_cross 0 4%N 7%N H).
  change Generator.USE_HIGH_PRECISION_MODE with false.
  rewrite cross_GetConnectedRoads. reflexivity.
Defined.

Lemma GetActualNextIntersection_resolved_witness :
  exists view,
    Generator.GetActualNextIntersection externals chain 3 0%N 0%N
      = Generator.Returned (view, 2%N, 4%N) /\
    Generator.GetConnectedRoads externals chain 2%N 4%N
      Generator.USE_HIGH_PRECISION_MODE = Some view /\
    Generator.resolved chain 0%N 0%N 2%N 4%N.
Proof.
  eexists. split; [vm_compute; reflexivity|].
  apply (GetActualNextIntersection_resolved externals chain 3 0%N 0%N).
  vm_compute. reflexivity.
Defined.

Lemma leastSquareRegression_extremes_witness :
  Toolkit.leastSquareRegression MicroDegrees.toFloating MicroDegrees.toFixed
    diagonal_road
    = Some (mkCoordinate (-1000000) (-1000000), mkCoordinate 3000000 3000000) /\
  PrimFloat.ltb
    (PrimFloat.abs (Toolkit.denominator MicroDegrees.toFloating diagonal_road))
    Double.epsilon = false /\
  exists c_min c_max,
    In c_min diagonal_road /\ In c_max diagonal_road /\
    (-1000000)%Z
      = MicroDegrees.toFixed (MicroDegrees.toFloating (lon c_min) - 1)%float /\
    3000000%Z
      = MicroDegrees.toFixed (MicroDegrees.toFloating (lon c_max) + 1)%float /\
    (forall c, In c diagonal_road ->
       PrimFloat.ltb (MicroDegrees.toFloating (lon c))
         (MicroDegrees.toFloating (lon c_min)) = false /\
       PrimFloat.ltb (MicroDegrees.toFloating (lon c_max))
         (MicroDegrees.toFloating (lon c)) = false).
Proof.
  assert (Hresult :
    Toolkit.leastSquareRegression MicroDegrees.toFloating MicroDegrees.toFixed
      diagonal_road
    = Some (mkCoordinate (-1000000) (-1000000), mkCoordinate 3000000 3000000))
    by (vm_compute; reflexivity).
  assert (Hregular :
    PrimFloat.ltb
      (PrimFloat.abs (Toolkit.denominator MicroDegrees.toFloating diagonal_road))
      Double.epsilon = false)
    by (vm_compute; reflexivity).
  split; [exact Hresult|]. split; [exact Hregular|].
  exact (leastSquareRegression_extremes MicroDegrees.toFloating MicroDegrees.toFixed
           diagonal_road _ _ Hresult Hregular).
Defined.

Lemma GetConnectedRoads_at_barrier_witness :
  GetTarget (node_based_graph barrier_cross) 7%N ∈ barrier_nodes barrier_cross /\
  Generator.GetConnectedRoads externals barrier_cross 4%N 7%N false
    = Some barrier_cross_view /\
  In (mkViewData (mkShapeData 3%N 180%float 1000%float) true 0%float) barrier_cross_view /\
  true = Generator.is_allowed_turn externals barrier_cross 4%N 7%N
           (mkShapeData 3%N 180%float 1000%float) /\
  true = negb (reversed (GetEdgeData (node_based_graph barrier_cross) 3%N))
         && (GetTarget (node_based_graph barrier_cross) 3%N =? 4)%N
         && negb (Generator.is_restricted externals barrier_cross 4%N 7%N
                    (GetTarget (node_based_graph barrier_cross) 3%N)).
Proof.
  assert (Hbarrier :
    GetTarget (node_based_graph barrier_cross) 7%N ∈ barrier_nodes barrier_cross)
    by (change (0%N ∈ ({[0%N]} : gset N)); apply elem_of_singleton; reflexivity).
  assert (Hview :
    Generator.GetConnectedRoads externals barrier_cross 4%N 7%N false
    = Some barrier_cross_view)
    by (vm_compute; reflexivity).
  assert (Hroad :
    In (mkViewData (mkShapeData 3%N 180%float 1000%float) true 0%float) barrier_cross_view)
    by (left; reflexivity).
  split; [exact Hbarrier|]. split; [exact Hview|]. split; [exact Hroad|].
  exact (GetConnectedRoads_at_barrier externals barrier_cross 4%N 7%N false
           barrier_cross_view _ Hbarrier Hview Hroad).
Defined.

Lemma Transform_needs_uturn_bearing_witness :
  Generator.uturn_edge_itr parallel 1%N parallel_shape
    = Some (0%nat, mkShapeData 1%N 180%float 1000%float) /\
  (forall road, In road [mkShapeData 2%N 0%float 1000%float] ->
     GetTarget (node_based_graph parallel) (eid road) <> 1%N) /\
  Generator.TransformIntersectionShapeIntoView externals parallel 1%N 3%N
    [mkShapeData 2%N 0%float 1000%float] parallel_shape [] = None.
Proof.
  assert (Hu : Generator.uturn_edge_itr parallel 1%N parallel_shape
               = Some (0%nat, mkShapeData 1%N 180%float 1000%float))
    by (vm_compute; reflexivity).
  assert (Hmissing : forall road, In road [mkShapeData 2%N 0%float 1000%float] ->
            GetTarget (node_based_graph parallel) (eid road) <> 1%N).
  { intros road [<-|[]]. vm_compute. discriminate. }
  split; [exact Hu|]. split; [exact Hmissing|].
  exact (Transform_needs_uturn_bearing externals parallel 1%N 3%N
           [mkShapeData 2%N 0%float 1000%float] parallel_shape [] 0%nat
           (mkShapeData 1%N 180%float 1000%float) Hu Hmissing).
Defined.

Lemma reversed_roads_are_never_allowed_witness :
  Generator.GetConnectedRoads externals one_way_cross 4%N 7%N false
    = Some one_way_cross_view /\
  In (mkViewData (mkShapeData 3%N 180%float 1000%float) false 0%float) one_way_cross_view /\
  reversed (GetEdgeData (node_based_graph one_way_cross) 3%N) = true /\
  entry_allowed (mkViewData (mkShapeData 3%N 180%float 1000%float) false 0%float) = false.
Proof.
  assert (Hview :
    Generator.GetConnectedRoads externals one_way_cross 4%N 7%N false
    = Some one_way_cross_view)
    by (vm_compute; reflexivity).
  assert (Hroad :
    In (mkViewData (mkShapeData 3%N 180%float 1000%float) false 0%float) one_way_cross_view)
    by (left; reflexivity).
  assert (Hreversed : reversed (GetEdgeData (node_based_graph one_way_cross) 3%N) = true)
    by reflexivity.
  split; [exact Hview|]. split; [exact Hroad|]. split; [exact Hreversed|].
  exact (reversed_roads_are_never_allowed externals one_way_cross 4%N 7%N false
           one_way_cross_view _ Hview Hroad Hreversed).
Defined.

End MoreScenarios.

